(** * The MySQL cluster operator: AddCluster and UpdateCluster

    A shallow embedding of [pkg/operator/cluster/operator.go].  The operator
    talks to the Kubernetes API through two clientsets; here the platform is
    an interface ([Interface]) over an arbitrary state, every call the
    operator issues is recorded in an event log together with the error it
    came back with, and a nil pointer dereference is an explicit outcome
    ([Panic]).  Logging calls are left out: they do not touch the platform,
    the cluster object or the returned error.

    The file has the errors and API objects, the platform interface, the
    operator, two in-memory platforms to run it on (the fake clientset, and
    the typed clients of the real one), the event dispatcher as the spec
    describes it, and then the properties: of the steps of the operator, of
    AddCluster, of UpdateCluster, of the dispatcher, and the runs on the
    in-memory platforms. *)

From stdpp Require Import base option list strings gmap.

Open Scope string_scope.
Open Scope list_scope.

(** ** Errors

    Go's [error] values that can reach the operator: API status errors of
    [k8s.io/apimachinery/pkg/api/errors] (classified by their reason), plain
    errors such as the ones a template rendering produces, and the aggregate
    of [k8s.io/apimachinery/pkg/util/errors].  A nil [error] is [None]. *)

Inductive StatusReason :=
| StatusReasonUnknown
| StatusReasonNotFound
| StatusReasonAlreadyExists
| StatusReasonConflict
| StatusReasonInternalError.

#[warnings="-register-all"]
Inductive error :=
| StatusError (reason : StatusReason) (message : string)
| errorString (message : string)
| aggregate (errs : list error).

(** [apierrors.ReasonForError]: the reason of a status error, unknown for
    everything else (nil included). *)
Definition ReasonForError (err : option error) : StatusReason :=
  match err with
  | Some (StatusError reason _) => reason
  | _ => StatusReasonUnknown
  end.

Definition IsAlreadyExists (err : option error) : bool :=
  match ReasonForError err with StatusReasonAlreadyExists => true | _ => false end.

Definition IsNotFound (err : option error) : bool :=
  match ReasonForError err with StatusReasonNotFound => true | _ => false end.

(** [errors.NewAggregate]: nil entries are dropped; an empty list, or a list
    of nils only, gives nil; otherwise the remaining errors are wrapped, in
    order, in one aggregate. *)
Definition NewAggregate (errlist : list (option error)) : option error :=
  match omap id errlist with
  | [] => None
  | errs => Some (aggregate errs)
  end.

(** The causes of an error: the errors of an aggregate, aggregates inside it
    opened up recursively (what [errors.Flatten] collects), and the error
    itself when it is not an aggregate. *)
Fixpoint causes (err : error) : list error :=
  match err with
  | aggregate errs => flat_map causes errs
  | _ => [err]
  end.

(** ** API objects

    Only the fields the operator reads or writes are kept. *)

Module metav1.
Record ObjectMeta := {
  Name : string;
  Namespace : string;
  ResourceVersion : string
}.
End metav1.

Module corev1.
Record Service := {
  ObjectMeta : metav1.ObjectMeta;
  Spec : string
}.
End corev1.

Module appsv1.
Record StatefulSet := {
  ObjectMeta : metav1.ObjectMeta;
  Spec : string
}.
End appsv1.

Module crv1.
Record MySQLClusterSpec := {
  Storage : string;
  Replicas : Z;
  FromBackup : string
}.

Record MySQLClusterStatus := {
  State : string;
  Message : string
}.

Record MySQLCluster := {
  ObjectMeta : metav1.ObjectMeta;
  Spec : MySQLClusterSpec;
  Status : MySQLClusterStatus
}.

Record MySQLBackupInstance := {
  BackupObjectMeta : metav1.ObjectMeta;
  BackupSpec : string;
  BackupStatus : string
}.

(** [cluster.Name] and [cluster.Namespace] (promoted from the embedded
    ObjectMeta). *)
Definition Name (c : MySQLCluster) : string := metav1.Name (ObjectMeta c).
Definition Namespace (c : MySQLCluster) : string := metav1.Namespace (ObjectMeta c).
End crv1.

(** [new(corev1.Service)] and [new(appsv1.StatefulSet)]: zero values. *)
Definition new_ObjectMeta : metav1.ObjectMeta :=
  {| metav1.Name := ""; metav1.Namespace := ""; metav1.ResourceVersion := "" |}.
Definition new_Service : corev1.Service :=
  {| corev1.ObjectMeta := new_ObjectMeta; corev1.Spec := "" |}.
Definition new_StatefulSet : appsv1.StatefulSet :=
  {| appsv1.ObjectMeta := new_ObjectMeta; appsv1.Spec := "" |}.

(** [service.ObjectMeta.ResourceVersion = v] *)
Definition set_ResourceVersion (service : corev1.Service) (v : string) : corev1.Service :=
  {| corev1.ObjectMeta :=
       {| metav1.Name := metav1.Name (corev1.ObjectMeta service);
          metav1.Namespace := metav1.Namespace (corev1.ObjectMeta service);
          metav1.ResourceVersion := v |};
     corev1.Spec := corev1.Spec service |}.

(** [cluster.Status.State = state; cluster.Status.Message = message] *)
Definition set_Status (cluster : crv1.MySQLCluster) (state message : string) : crv1.MySQLCluster :=
  {| crv1.ObjectMeta := crv1.ObjectMeta cluster;
     crv1.Spec := crv1.Spec cluster;
     crv1.Status := {| crv1.State := state; crv1.Message := message |} |}.

(** ** Names and templates *)

Definition serviceTemplate : string := "artifacts/cluster-service.yaml".
Definition serviceReadTemplate : string := "artifacts/cluster-service-read.yaml".
Definition statefulSetTemplate : string := "artifacts/cluster-statefulset.yaml".

(** Modelled from the spec: the naming helper [ServiceName] of package
    cluster is not among the sources.  By the naming contract the read-write
    endpoint has the name of the cluster. *)
Definition ServiceName (clusterName : string) : string := clusterName.

(** Modelled from the spec: the naming helper [ReadServiceName] is not among
    the sources.  By the naming contract the read-only endpoint has the name
    of the cluster followed by "-read". *)
Definition ReadServiceName (clusterName : string) : string := clusterName +:+ "-read".

(** Modelled from the spec: the naming helper [StatefulSetName] is not among
    the sources.  By the naming contract the workload has the name of the
    cluster. *)
Definition StatefulSetName (clusterName : string) : string := clusterName.

(** ** The platform

    The calls the operator makes on [kubernetes.Interface] and on the
    generated [versioned.Interface], with the namespace the typed client was
    opened for as first argument.  A call returns what the Go method
    returns, a possibly nil object and a possibly nil error, and the next
    state of the platform. *)

Class Interface (P : Type) := {
  Services_Create : string → corev1.Service → P → (option corev1.Service * option error) * P;
  Services_Get : string → string → P → (option corev1.Service * option error) * P;
  Services_Update : string → corev1.Service → P → (option corev1.Service * option error) * P;
  Services_Delete : string → string → P → option error * P;
  StatefulSets_Create :
    string → appsv1.StatefulSet → P → (option appsv1.StatefulSet * option error) * P;
  StatefulSets_Update :
    string → appsv1.StatefulSet → P → (option appsv1.StatefulSet * option error) * P;
  StatefulSets_Delete : string → string → P → option error * P;
  MySQLBackupInstances_Get :
    string → string → P → (option crv1.MySQLBackupInstance * option error) * P;
  MySQLClusters_Update :
    string → crv1.MySQLCluster → P → (option crv1.MySQLCluster * option error) * P
}.

(** The parts of the repository the operator calls and that are not among
    the sources: the defaulting method of the cluster resource and the
    template renderer [util.ObjectFromTemplate] (with the package's FuncMap),
    once per kind of object it fills in.  The renderer gets the data, the
    freshly allocated object and the template file name, and gives back the
    filled object and a possibly nil error. *)
Class Externals := {
  WithDefaults : crv1.MySQLCluster → crv1.MySQLCluster;
  ObjectFromTemplate_Service :
    crv1.MySQLCluster → corev1.Service → string → corev1.Service * option error;
  ObjectFromTemplate_StatefulSet :
    crv1.MySQLCluster * option crv1.MySQLBackupInstance → appsv1.StatefulSet → string →
    appsv1.StatefulSet * option error
}.

(** What the operator asked of the platform, and the log entry of a call:
    the request and the error it returned. *)
Inductive Action :=
| CreateService (ns : string) (service : corev1.Service)
| GetService (ns name : string)
| UpdateService (ns : string) (service : corev1.Service)
| DeleteService (ns name : string)
| CreateStatefulSet (ns : string) (statefulSet : appsv1.StatefulSet)
| UpdateStatefulSet (ns : string) (statefulSet : appsv1.StatefulSet)
| DeleteStatefulSet (ns name : string)
| GetMySQLBackupInstance (ns name : string)
| UpdateMySQLCluster (ns : string) (cluster : crv1.MySQLCluster).

Record Event := {
  action : Action;
  failure : option error
}.

(** ** The monad of operator code: platform state, event log, panics *)

Record World (P : Type) := {
  client : P;
  events : list Event
}.
Arguments client {P} _.
Arguments events {P} _.

Inductive Outcome (P A : Type) :=
| Return (a : A) (w : World P)
| Panic (w : World P).
Arguments Return {P A} _ _.
Arguments Panic {P A} _.

Definition M (P A : Type) : Type := World P → Outcome P A.

Definition ret {P A} (a : A) : M P A := λ w, Return a w.

Definition bind {P A B} (m : M P A) (k : A → M P B) : M P B :=
  λ w, match m w with
       | Return a w' => k a w'
       | Panic w' => Panic w'
       end.

(** A nil pointer dereference. *)
Definition panic {P A} : M P A := λ w, Panic w.

(** One call on the platform: run it and log it with its error. *)
Definition invoke {P R} (a : Action) (errOf : R → option error) (call : P → R * P) : M P R :=
  λ w, let '(r, p) := call (client w) in
       Return r {| client := p; events := events w ++ [{| action := a; failure := errOf r |}] |}.

Declare Scope op_scope.
Delimit Scope op_scope with op.
Notation "'let*' x := c 'in' k" := (bind c (λ x, k))
  (at level 10, x pattern, c at level 100, k at level 200) : op_scope.

(** ** The operator *)

Section Operator.
Context {P : Type} `{!Interface P} `{!Externals}.

Local Open Scope op_scope.

(** The typed clients: each method is one logged call. *)
Definition ServicesCreate (ns : string) (service : corev1.Service)
  : M P (option corev1.Service * option error) :=
  invoke (CreateService ns service) snd (Services_Create ns service).

Definition ServicesGet (ns name : string) : M P (option corev1.Service * option error) :=
  invoke (GetService ns name) snd (Services_Get ns name).

Definition ServicesUpdate (ns : string) (service : corev1.Service)
  : M P (option corev1.Service * option error) :=
  invoke (UpdateService ns service) snd (Services_Update ns service).

Definition ServicesDelete (ns name : string) : M P (option error) :=
  invoke (DeleteService ns name) id (Services_Delete ns name).

Definition StatefulSetsCreate (ns : string) (statefulSet : appsv1.StatefulSet)
  : M P (option appsv1.StatefulSet * option error) :=
  invoke (CreateStatefulSet ns statefulSet) snd (StatefulSets_Create ns statefulSet).

Definition StatefulSetsUpdate (ns : string) (statefulSet : appsv1.StatefulSet)
  : M P (option appsv1.StatefulSet * option error) :=
  invoke (UpdateStatefulSet ns statefulSet) snd (StatefulSets_Update ns statefulSet).

Definition StatefulSetsDelete (ns name : string) : M P (option error) :=
  invoke (DeleteStatefulSet ns name) id (StatefulSets_Delete ns name).

Definition MySQLBackupInstancesGet (ns name : string)
  : M P (option crv1.MySQLBackupInstance * option error) :=
  invoke (GetMySQLBackupInstance ns name) snd (MySQLBackupInstances_Get ns name).

Definition MySQLClustersUpdate (ns : string) (cluster : crv1.MySQLCluster)
  : M P (option crv1.MySQLCluster * option error) :=
  invoke (UpdateMySQLCluster ns cluster) snd (MySQLClusters_Update ns cluster).

Definition serviceForCluster (cluster : crv1.MySQLCluster) (filename : string)
  : corev1.Service * option error :=
  let service := new_Service in
  ObjectFromTemplate_Service cluster service filename.

Definition statefulSetForCluster (cluster : crv1.MySQLCluster)
    (backup : option crv1.MySQLBackupInstance) : appsv1.StatefulSet * option error :=
  let statefulSet := new_StatefulSet in
  ObjectFromTemplate_StatefulSet (cluster, backup) statefulSet statefulSetTemplate.

Definition removeService (cluster : crv1.MySQLCluster) : M P (option error) :=
  ServicesDelete (crv1.Namespace cluster) (ServiceName (crv1.Name cluster)).

Definition removeReadService (cluster : crv1.MySQLCluster) : M P (option error) :=
  ServicesDelete (crv1.Namespace cluster) (ReadServiceName (crv1.Name cluster)).

Definition removeStatefulSet (cluster : crv1.MySQLCluster) : M P (option error) :=
  StatefulSetsDelete (crv1.Namespace cluster) (StatefulSetName (crv1.Name cluster)).

Definition createService (cluster : crv1.MySQLCluster) (filename : string)
  : M P (option error) :=
  let '(service, err) := serviceForCluster cluster filename in
  match err with
  | Some _ => ret err
  | None =>
    let* (_, err) := ServicesCreate (crv1.Namespace cluster) service in
    if bool_decide (is_Some err) && negb (IsAlreadyExists err) then ret err
    else ret None
  end.

Definition createStatefulSet (cluster : crv1.MySQLCluster) : M P (option error) :=
  let create (backup : option crv1.MySQLBackupInstance) : M P (option error) :=
    let '(statefulSet, err) := statefulSetForCluster cluster backup in
    match err with
    | Some _ => ret err
    | None =>
      let* (_, err) := StatefulSetsCreate (crv1.Namespace cluster) statefulSet in
      if bool_decide (is_Some err) && negb (IsAlreadyExists err) then ret err
      else ret None
    end in
  if bool_decide (crv1.FromBackup (crv1.Spec cluster) ≠ "") then
    let* (backup, err) :=
      MySQLBackupInstancesGet (crv1.Namespace cluster) (crv1.FromBackup (crv1.Spec cluster)) in
    match err with
    | Some _ => ret err
    | None => create backup
    end
  else create None.

(** The cluster is passed by pointer and written through it: the operations
    give back the cluster object as they leave it, with the error. *)
Definition AddCluster (cluster : crv1.MySQLCluster) : M P (crv1.MySQLCluster * option error) :=
  let cluster := WithDefaults cluster in
  let* err := createService cluster serviceTemplate in
  match err with
  | Some _ => ret (cluster, err)
  | None =>
    let* err := createService cluster serviceReadTemplate in
    match err with
    | Some _ =>
      let* removeErr := removeService cluster in
      ret (cluster, NewAggregate [err; removeErr])
    | None =>
      let* err := createStatefulSet cluster in
      match err with
      | Some _ =>
        let* removeErr := removeService cluster in
        let err := NewAggregate [err; removeErr] in
        let* removeErr := removeReadService cluster in
        ret (cluster, NewAggregate [err; removeErr])
      | None => ret (cluster, None)
      end
    end
  end.

Definition setClusterState (cluster : crv1.MySQLCluster) (state message : string)
  : M P (crv1.MySQLCluster * option error) :=
  let cluster := set_Status cluster state message in
  let* (_, updateErr) :=
    MySQLClustersUpdate (metav1.Namespace (crv1.ObjectMeta cluster)) cluster in
  ret (cluster, updateErr).

(** [serviceInterface] is the services client of one namespace. *)
Definition updateService (cluster : crv1.MySQLCluster) (serviceInterface : string)
    (template : string) : M P (option error) :=
  let '(service, err) := serviceForCluster cluster template in
  match err with
  | Some _ => ret err
  | None =>
    let* (oldService, err) :=
      ServicesGet serviceInterface (metav1.Name (corev1.ObjectMeta service)) in
    match oldService with
    | None => panic
    | Some oldService =>
      let service :=
        set_ResourceVersion service (metav1.ResourceVersion (corev1.ObjectMeta oldService)) in
      let* (_, err) := ServicesUpdate serviceInterface service in
      ret err
    end
  end.

Definition updateServices (cluster : crv1.MySQLCluster) : M P (option error) :=
  let serviceInterface := crv1.Namespace cluster in
  let* err := updateService cluster serviceInterface serviceTemplate in
  match err with
  | Some _ => ret err
  | None => updateService cluster serviceInterface serviceReadTemplate
  end.

Definition updateStatefulSet (cluster : crv1.MySQLCluster) : M P (option error) :=
  let '(statefulSet, err) := statefulSetForCluster cluster None in
  match err with
  | Some _ => ret err
  | None =>
    let* (_, err) := StatefulSetsUpdate (crv1.Namespace cluster) statefulSet in
    ret err
  end.

Definition UpdateCluster (newCluster : crv1.MySQLCluster)
  : M P (crv1.MySQLCluster * option error) :=
  let newCluster := WithDefaults newCluster in
  let* err := updateServices newCluster in
  match err with
  | Some _ =>
    let* (newCluster, setStateErr) :=
      setClusterState newCluster "Failed update"
        "The provided patch resulted in a Service update failure" in
    ret (newCluster, NewAggregate [err; setStateErr])
  | None =>
    let* err := updateStatefulSet newCluster in
    match err with
    | Some _ =>
      let* (newCluster, setStateErr) :=
        setClusterState newCluster "Failed update"
          "The provided patch resulted in a StatefulSet update failure" in
      ret (newCluster, NewAggregate [err; setStateErr])
    | None => setClusterState newCluster "Successful update" ""
    end
  end.

(** *** Runs of AddCluster

    The four ways through AddCluster, by the results of the steps it is
    made of. *)
Inductive AddCluster_run (cluster : crv1.MySQLCluster) (w : World P)
  : Outcome P (crv1.MySQLCluster * option error) → Prop :=
| run_service_failed err w1 :
    createService cluster serviceTemplate w = Return (Some err) w1 →
    AddCluster_run cluster w (Return (cluster, Some err) w1)
| run_read_service_failed err removeErr w1 w2 w3 :
    createService cluster serviceTemplate w = Return None w1 →
    createService cluster serviceReadTemplate w1 = Return (Some err) w2 →
    removeService cluster w2 = Return removeErr w3 →
    AddCluster_run cluster w (Return (cluster, NewAggregate [Some err; removeErr]) w3)
| run_statefulSet_failed err removeErr removeReadErr w1 w2 w3 w4 w5 :
    createService cluster serviceTemplate w = Return None w1 →
    createService cluster serviceReadTemplate w1 = Return None w2 →
    createStatefulSet cluster w2 = Return (Some err) w3 →
    removeService cluster w3 = Return removeErr w4 →
    removeReadService cluster w4 = Return removeReadErr w5 →
    AddCluster_run cluster w
      (Return (cluster, NewAggregate [NewAggregate [Some err; removeErr]; removeReadErr]) w5)
| run_created w1 w2 w3 :
    createService cluster serviceTemplate w = Return None w1 →
    createService cluster serviceReadTemplate w1 = Return None w2 →
    createStatefulSet cluster w2 = Return None w3 →
    AddCluster_run cluster w (Return (cluster, None) w3).

(** What a computation may log: every event it adds, whether it returns or
    panics, is one of [ok]. *)
Definition logs_only {A} (ok : Event → Prop) (m : M P A) : Prop :=
  ∀ w, ∃ evs, Forall ok evs ∧
    match m w with
    | Return _ w' => events w' = events w ++ evs
    | Panic w' => events w' = events w ++ evs
    end.

Definition returns {A} (m : M P A) : Prop := ∀ w, ∃ a w', m w = Return a w'.

(** The events a run from [w] to [w'] added to the log. *)
Definition logged (w w' : World P) : list Event := drop (length (events w)) (events w').

End Operator.

Definition is_create (a : Action) : bool :=
  match a with CreateService _ _ | CreateStatefulSet _ _ => true | _ => false end.

Definition is_get_backup (a : Action) : bool :=
  match a with GetMySQLBackupInstance _ _ => true | _ => false end.

Definition is_status_write (a : Action) : bool :=
  match a with UpdateMySQLCluster _ _ => true | _ => false end.

Definition is_statefulSet_update (a : Action) : bool :=
  match a with UpdateStatefulSet _ _ => true | _ => false end.

Definition is_get_service (a : Action) : bool :=
  match a with GetService _ _ => true | _ => false end.

(** The calls on the way of an update: reading and updating a service,
    updating the stateful set, updating the cluster resource. *)
Definition is_update_call (a : Action) : bool :=
  match a with
  | GetService _ _ | UpdateService _ _ | UpdateStatefulSet _ _ | UpdateMySQLCluster _ _ => true
  | _ => false
  end.

(** The Create calls of a log. *)
Definition creates (evs : list Event) : list Event :=
  filter (λ ev, is_create (action ev) = true) evs.

(** A Create that went through, or found the object in place. *)
Definition benign (err : option error) : Prop := err = None ∨ IsAlreadyExists err = true.

(** ** An in-memory platform

    A platform in the manner of client-go's fake clientsets, which the
    repository's fake controller is built on: a chain of reactors in front of
    an object tracker.  The first reactor that handles a call decides it,
    answering with a nil object and its (possibly nil) error; calls no
    reactor handles go to the tracker, which keeps the objects by namespace
    and name. *)

Definition Reactor : Type := Action → option (option error).

Record Fake := {
  ReactionChain : list Reactor;
  services : gmap (string * string) corev1.Service;
  statefulSets : gmap (string * string) appsv1.StatefulSet;
  backupInstances : gmap (string * string) crv1.MySQLBackupInstance;
  clusters : gmap (string * string) crv1.MySQLCluster
}.

Fixpoint Invokes (chain : list Reactor) (a : Action) : option (option error) :=
  match chain with
  | [] => None
  | reactor :: chain =>
    match reactor a with
    | Some err => Some err
    | None => Invokes chain a
    end
  end.

Definition NewNotFound (name : string) : error :=
  StatusError StatusReasonNotFound (name +:+ " not found").
Definition NewAlreadyExists (name : string) : error :=
  StatusError StatusReasonAlreadyExists (name +:+ " already exists").

Section Tracker.
Context {A : Type}.
Implicit Types objects : gmap (string * string) A.

Definition tracker_create (ns name : string) (obj : A) objects
  : (option A * option error) * gmap (string * string) A :=
  match objects !! (ns, name) with
  | Some _ => ((None, Some (NewAlreadyExists name)), objects)
  | None => ((Some obj, None), <[(ns, name) := obj]> objects)
  end.

Definition tracker_get (ns name : string) objects : option A * option error :=
  match objects !! (ns, name) with
  | Some obj => (Some obj, None)
  | None => (None, Some (NewNotFound name))
  end.

Definition tracker_update (ns name : string) (obj : A) objects
  : (option A * option error) * gmap (string * string) A :=
  match objects !! (ns, name) with
  | Some _ => ((Some obj, None), <[(ns, name) := obj]> objects)
  | None => ((None, Some (NewNotFound name)), objects)
  end.

Definition tracker_delete (ns name : string) objects
  : option error * gmap (string * string) A :=
  match objects !! (ns, name) with
  | Some _ => (None, delete (ns, name) objects)
  | None => (Some (NewNotFound name), objects)
  end.
End Tracker.

Definition with_services (f : Fake) (m : gmap (string * string) corev1.Service) : Fake :=
  {| ReactionChain := ReactionChain f; services := m; statefulSets := statefulSets f;
     backupInstances := backupInstances f; clusters := clusters f |}.
Definition with_statefulSets (f : Fake) (m : gmap (string * string) appsv1.StatefulSet) : Fake :=
  {| ReactionChain := ReactionChain f; services := services f; statefulSets := m;
     backupInstances := backupInstances f; clusters := clusters f |}.
Definition with_clusters (f : Fake) (m : gmap (string * string) crv1.MySQLCluster) : Fake :=
  {| ReactionChain := ReactionChain f; services := services f; statefulSets := statefulSets f;
     backupInstances := backupInstances f; clusters := m |}.

(** A call with an object in its answer: the reaction chain first, then the
    tracker. *)
Definition fake_call {A} (a : Action) (track : Fake → (option A * option error) * Fake)
    (f : Fake) : (option A * option error) * Fake :=
  match Invokes (ReactionChain f) a with
  | Some err => ((None, err), f)
  | None => track f
  end.

Definition fake_delete (a : Action) (track : Fake → option error * Fake) (f : Fake)
  : option error * Fake :=
  match Invokes (ReactionChain f) a with
  | Some err => (err, f)
  | None => track f
  end.

#[global] Instance Fake_Interface : Interface Fake := {
  Services_Create ns service :=
    fake_call (CreateService ns service) (λ f,
      let '(r, m) := tracker_create ns (metav1.Name (corev1.ObjectMeta service)) service
                       (services f) in
      (r, with_services f m));
  Services_Get ns name :=
    fake_call (GetService ns name) (λ f, (tracker_get ns name (services f), f));
  Services_Update ns service :=
    fake_call (UpdateService ns service) (λ f,
      let '(r, m) := tracker_update ns (metav1.Name (corev1.ObjectMeta service)) service
                       (services f) in
      (r, with_services f m));
  Services_Delete ns name :=
    fake_delete (DeleteService ns name) (λ f,
      let '(r, m) := tracker_delete ns name (services f) in (r, with_services f m));
  StatefulSets_Create ns statefulSet :=
    fake_call (CreateStatefulSet ns statefulSet) (λ f,
      let '(r, m) := tracker_create ns (metav1.Name (appsv1.ObjectMeta statefulSet))
                       statefulSet (statefulSets f) in
      (r, with_statefulSets f m));
  StatefulSets_Update ns statefulSet :=
    fake_call (UpdateStatefulSet ns statefulSet) (λ f,
      let '(r, m) := tracker_update ns (metav1.Name (appsv1.ObjectMeta statefulSet))
                       statefulSet (statefulSets f) in
      (r, with_statefulSets f m));
  StatefulSets_Delete ns name :=
    fake_delete (DeleteStatefulSet ns name) (λ f,
      let '(r, m) := tracker_delete ns name (statefulSets f) in (r, with_statefulSets f m));
  MySQLBackupInstances_Get ns name :=
    fake_call (GetMySQLBackupInstance ns name) (λ f,
      (tracker_get ns name (backupInstances f), f));
  MySQLClusters_Update ns cluster :=
    fake_call (UpdateMySQLCluster ns cluster) (λ f,
      let '(r, m) := tracker_update ns (crv1.Name cluster) cluster (clusters f) in
      (r, with_clusters f m))
}.

(** [NewSimpleClientset]: no reactor, the given objects in the tracker. *)
Definition NewSimpleClientset (svcs : gmap (string * string) corev1.Service)
    (sets : gmap (string * string) appsv1.StatefulSet)
    (backups : gmap (string * string) crv1.MySQLBackupInstance)
    (crs : gmap (string * string) crv1.MySQLCluster) : Fake :=
  {| ReactionChain := []; services := svcs; statefulSets := sets;
     backupInstances := backups; clusters := crs |}.

(** [PrependReactor] *)
Definition PrependReactor (reactor : Reactor) (f : Fake) : Fake :=
  {| ReactionChain := reactor :: ReactionChain f; services := services f;
     statefulSets := statefulSets f; backupInstances := backupInstances f;
     clusters := clusters f |}.

(** The typed clients of the real clientsets allocate the result before the
    request and decode the answer into it: a failed call hands back the zero
    object with its error, never nil.  [Rest] is the in-memory platform
    behind such clients. *)
Record Rest := { backend : Fake }.

Definition new_MySQLBackupInstance : crv1.MySQLBackupInstance :=
  {| crv1.BackupObjectMeta := new_ObjectMeta; crv1.BackupSpec := "";
     crv1.BackupStatus := "" |}.
Definition new_MySQLCluster : crv1.MySQLCluster :=
  {| crv1.ObjectMeta := new_ObjectMeta;
     crv1.Spec := {| crv1.Storage := ""; crv1.Replicas := 0; crv1.FromBackup := "" |};
     crv1.Status := {| crv1.State := ""; crv1.Message := "" |} |}.

Definition into {A} (result : A) (r : (option A * option error) * Fake)
  : (option A * option error) * Rest :=
  ((Some (default result r.1.1), r.1.2), {| backend := r.2 |}).

#[global] Instance Rest_Interface : Interface Rest := {
  Services_Create ns service r :=
    into new_Service (Services_Create ns service (backend r));
  Services_Get ns name r := into new_Service (Services_Get ns name (backend r));
  Services_Update ns service r :=
    into new_Service (Services_Update ns service (backend r));
  Services_Delete ns name r :=
    let '(err, f) := Services_Delete ns name (backend r) in (err, {| backend := f |});
  StatefulSets_Create ns statefulSet r :=
    into new_StatefulSet (StatefulSets_Create ns statefulSet (backend r));
  StatefulSets_Update ns statefulSet r :=
    into new_StatefulSet (StatefulSets_Update ns statefulSet (backend r));
  StatefulSets_Delete ns name r :=
    let '(err, f) := StatefulSets_Delete ns name (backend r) in (err, {| backend := f |});
  MySQLBackupInstances_Get ns name r :=
    into new_MySQLBackupInstance (MySQLBackupInstances_Get ns name (backend r));
  MySQLClusters_Update ns cluster r :=
    into new_MySQLCluster (MySQLClusters_Update ns cluster (backend r))
}.

Definition start {P} (p : P) : World P := {| client := p; events := [] |}.

(** ** A defaulting and a renderer to run the operator with *)

Definition defaultStorage : string := "1Gi".
Definition defaultReplicas : Z := 2.

(** Modelled from the spec: the defaulting method [WithDefaults] of the
    cluster resource is not among the sources.  Defaulting gives the unset
    optional fields of the spec (storage size, replicas) their defaults; it
    is pure and touches nothing else. *)
Definition sample_WithDefaults (c : crv1.MySQLCluster) : crv1.MySQLCluster :=
  let spec := crv1.Spec c in
  {| crv1.ObjectMeta := crv1.ObjectMeta c;
     crv1.Spec :=
       {| crv1.Storage := if bool_decide (crv1.Storage spec = "") then defaultStorage
                          else crv1.Storage spec;
          crv1.Replicas := if bool_decide (crv1.Replicas spec = 0%Z) then defaultReplicas
                           else crv1.Replicas spec;
          crv1.FromBackup := crv1.FromBackup spec |};
     crv1.Status := crv1.Status c |}.

Definition sample_meta (c : crv1.MySQLCluster) (name : string) : metav1.ObjectMeta :=
  {| metav1.Name := name; metav1.Namespace := crv1.Namespace c;
     metav1.ResourceVersion := "" |}.

(** Modelled from the spec: the renderer [util.ObjectFromTemplate] and the
    service templates under artifacts/ are not among the sources.  Rendering
    is a pure function of the cluster and the template: the object is in the
    cluster's namespace and named by the naming contract; a file that is
    not one of the templates does not render. *)
Definition sample_Service (c : crv1.MySQLCluster) (service : corev1.Service)
    (filename : string) : corev1.Service * option error :=
  if bool_decide (filename = serviceTemplate) then
    ({| corev1.ObjectMeta := sample_meta c (ServiceName (crv1.Name c));
        corev1.Spec := "mysql" |}, None)
  else if bool_decide (filename = serviceReadTemplate) then
    ({| corev1.ObjectMeta := sample_meta c (ReadServiceName (crv1.Name c));
        corev1.Spec := "mysql-read" |}, None)
  else (service, Some (errorString ("no template " +:+ filename))).

(** Modelled from the spec: the same renderer, for the stateful set
    template, which is not among the sources either. *)
Definition sample_StatefulSet (data : crv1.MySQLCluster * option crv1.MySQLBackupInstance)
    (statefulSet : appsv1.StatefulSet) (filename : string)
  : appsv1.StatefulSet * option error :=
  if bool_decide (filename = statefulSetTemplate) then
    ({| appsv1.ObjectMeta := sample_meta data.1 (StatefulSetName (crv1.Name data.1));
        appsv1.Spec := crv1.Storage (crv1.Spec data.1) |}, None)
  else (statefulSet, Some (errorString ("no template " +:+ filename))).

Definition sample_Externals : Externals := {|
  WithDefaults := sample_WithDefaults;
  ObjectFromTemplate_Service := sample_Service;
  ObjectFromTemplate_StatefulSet := sample_StatefulSet
|}.

Definition sample_cluster (name fromBackup : string) : crv1.MySQLCluster :=
  {| crv1.ObjectMeta :=
       {| metav1.Name := name; metav1.Namespace := "default"; metav1.ResourceVersion := "" |};
     crv1.Spec := {| crv1.Storage := ""; crv1.Replicas := 0; crv1.FromBackup := fromBackup |};
     crv1.Status := {| crv1.State := ""; crv1.Message := "" |} |}.

(** A platform where the cluster "db" has been added. *)
Definition added : Fake :=
  match @AddCluster Fake _ sample_Externals (sample_cluster "db" "")
          (start (NewSimpleClientset ∅ ∅ ∅ ∅)) with
  | Return _ w => client w
  | Panic w => client w
  end.

(** Reactors that fail one kind of call. *)
Definition fail_create_service (name : string) (err : option error) : Reactor :=
  λ a, match a with
       | CreateService _ service =>
         if bool_decide (metav1.Name (corev1.ObjectMeta service) = name) then Some err else None
       | _ => None
       end.

Definition fail_delete_service (name : string) (err : option error) : Reactor :=
  λ a, match a with
       | DeleteService _ n => if bool_decide (n = name) then Some err else None
       | _ => None
       end.

Definition fail_create_statefulSet (err : option error) : Reactor :=
  λ a, match a with CreateStatefulSet _ _ => Some err | _ => None end.

Definition fail_update_service (name : string) (err : option error) : Reactor :=
  λ a, match a with
       | UpdateService _ service =>
         if bool_decide (metav1.Name (corev1.ObjectMeta service) = name) then Some err else None
       | _ => None
       end.

Definition fail_get_service (name : string) (err : option error) : Reactor :=
  λ a, match a with
       | GetService _ n => if bool_decide (n = name) then Some err else None
       | _ => None
       end.

Definition fail_update_cluster (err : option error) : Reactor :=
  λ a, match a with UpdateMySQLCluster _ _ => Some err | _ => None end.


(** ** The event dispatcher

    The cluster controller that turns watch notifications into calls of the
    operator is not among the sources (only the constructor of its fake is);
    the definitions of this part follow the spec. *)

(** Modelled from the spec: the kinds of notification the dispatcher
    consumes (the controller is not among the sources). *)
Inductive EventType := Added | Modified | Deleted.

Record Notification := {
  kind : EventType;
  resource : crv1.MySQLCluster
}.

Definition Identity : Type := string * string.

Definition identity (c : crv1.MySQLCluster) : Identity := (crv1.Namespace c, crv1.Name c).

Inductive Operation := OpAddCluster | OpUpdateCluster | OpTeardown.

(** Modelled from the spec: the dispatcher (not among the sources) invokes
    AddCluster for Added and UpdateCluster for Modified, and forwards Deleted
    to the teardown. *)
Definition operation (k : EventType) : Operation :=
  match k with
  | Added => OpAddCluster
  | Modified => OpUpdateCluster
  | Deleted => OpTeardown
  end.

(** What the reconciler observes: an invocation begins, an invocation ends. *)
Inductive Mark :=
| Begin (op : Operation) (c : crv1.MySQLCluster)
| End (op : Operation) (c : crv1.MySQLCluster).

Definition mark_resource (m : Mark) : crv1.MySQLCluster :=
  match m with Begin _ c | End _ c => c end.

(** Modelled from the spec: the state of the dispatcher (not among the
    sources).  There is one logical worker per resource identity; it holds
    the notifications of its identity that it has not started on, oldest
    first, and the one it is reconciling, if any.  Nothing is durable. *)
Record Dispatcher := {
  pending : gmap Identity (list Notification);
  running : gmap Identity Notification;
  trace : list Mark
}.

Definition NewDispatcher : Dispatcher := {| pending := ∅; running := ∅; trace := [] |}.

Inductive Step :=
| Arrive (n : Notification)
| Start (x : Identity)
| Finish (x : Identity).

(** Modelled from the spec: the steps of the dispatcher (not among the
    sources).  A notification that arrives is routed to the worker of its
    identity, behind the ones already there; an idle worker starts on its
    oldest notification and invokes the operation of its kind; a worker ends
    its invocation, failed or not, and is idle again.  A worker reconciles
    one notification at a time; workers of different identities take their
    steps in any interleaving. *)
Definition step (d : Dispatcher) (s : Step) : Dispatcher :=
  match s with
  | Arrive n =>
    let x := identity (resource n) in
    {| pending := <[x := default [] (pending d !! x) ++ [n]]> (pending d);
       running := running d;
       trace := trace d |}
  | Start x =>
    match running d !! x, pending d !! x with
    | None, Some (n :: queue) =>
      {| pending := <[x := queue]> (pending d);
         running := <[x := n]> (running d);
         trace := trace d ++ [Begin (operation (kind n)) (resource n)] |}
    | _, _ => d
    end
  | Finish x =>
    match running d !! x with
    | Some n =>
      {| pending := pending d;
         running := delete x (running d);
         trace := trace d ++ [End (operation (kind n)) (resource n)] |}
    | None => d
    end
  end.

(** Modelled from the spec: a run of the dispatcher (not among the sources)
    from its start, along one interleaving of arrivals and workers' steps. *)
Definition dispatch (schedule : list Step) : Dispatcher := foldl step NewDispatcher schedule.

(** The notifications for an identity, in the order they arrived. *)
Definition arrivals (x : Identity) (schedule : list Step) : list Notification :=
  omap (λ s, match s with
             | Arrive n => if bool_decide (identity (resource n) = x) then Some n else None
             | _ => None
             end) schedule.

(** The marks of an identity in a trace. *)
Definition marks (x : Identity) (t : list Mark) : list Mark :=
  filter (λ m, identity (mark_resource m) = x) t.

(** One invocation after the other: each begun and ended before the next. *)
Definition serially (ns : list Notification) : list Mark :=
  n ← ns; [Begin (operation (kind n)) (resource n); End (operation (kind n)) (resource n)].

(** The notifications an identity's worker has not started on, and the end
    of the invocation it is in, if it is in one. *)
Definition queue (d : Dispatcher) (x : Identity) : list Notification :=
  default [] (pending d !! x).

Definition ending (d : Dispatcher) (x : Identity) : list Mark :=
  match running d !! x with
  | Some n => [End (operation (kind n)) (resource n)]
  | None => []
  end.

(** The turns the worker of an identity has to take to be done with what it
    holds: the end of the invocation it is in, if it is in one, then a start
    and an end for every pending notification. *)
Definition turns (d : Dispatcher) (x : Identity) : list Step :=
  match running d !! x with
  | Some _ => [Finish x]
  | None => []
  end ++ (queue d x ≫= λ _, [Start x; Finish x]).

(** What holds of the dispatcher after every step: the worker of an identity
    holds notifications of that identity only, and what has arrived for it,
    run serially, is what its marks in the trace show so far, then the end of
    the invocation under way, then what is pending. *)
Definition dispatcher_inv (schedule : list Step) (d : Dispatcher) : Prop :=
  ∀ x,
    Forall (λ n, identity (resource n) = x) (queue d x) ∧
    (∀ n, running d !! x = Some n → identity (resource n) = x) ∧
    serially (arrivals x schedule) = marks x (trace d) ++ ending d x ++ serially (queue d x).

(** ** Deep copies

    The generated deep copies of [pkg/apis/cr/v1].  A struct without
    reference fields is a value; the Items of a list is a slice, a header
    (backing array, offset, length) over an array in the heap, or nil.
    Copying a struct with [*out = *in] copies the header, not the array.  A
    read outside an array, or of an array that is not there, panics
    ([None]). *)

Definition loc : Type := positive.

Record slice := {
  array : loc;
  offset : nat;
  len : nat
}.

Record MySQLClusterList := {
  ListTypeMeta : string;
  ListMeta : string;
  Items : option slice
}.

Definition new_MySQLClusterList : MySQLClusterList :=
  {| ListTypeMeta := ""; ListMeta := ""; Items := None |}.

(** The elements a slice shows. *)
Definition view (h : gmap loc (list crv1.MySQLCluster)) (s : slice)
  : option (list crv1.MySQLCluster) :=
  arr ← h !! array s; Some (take (len s) (drop (offset s) arr)).

(** [in.DeepCopyInto(out)] on a spec: [*out = *in], then the storage
    quantity, a value, is copied. *)
Definition MySQLClusterSpec_DeepCopyInto (in_ out : crv1.MySQLClusterSpec)
  : crv1.MySQLClusterSpec :=
  let out := in_ in
  {| crv1.Storage := crv1.Storage in_;
     crv1.Replicas := crv1.Replicas out;
     crv1.FromBackup := crv1.FromBackup out |}.

(** [in.DeepCopyInto(out)] on a cluster: what [*out] is afterwards. *)
Definition MySQLCluster_DeepCopyInto (in_ out : crv1.MySQLCluster) : crv1.MySQLCluster :=
  let out := in_ in
  {| crv1.ObjectMeta := crv1.ObjectMeta in_;
     crv1.Spec := MySQLClusterSpec_DeepCopyInto (crv1.Spec in_) (crv1.Spec out);
     crv1.Status := crv1.Status in_ |}.

(** One turn of the loop: element [i] of in is deep-copied into element [i]
    of out. *)
Definition copy_item (inItems outItems : slice) (i : nat)
    (h : gmap loc (list crv1.MySQLCluster)) : option (gmap loc (list crv1.MySQLCluster)) :=
  src ← h !! array inItems;
  x ← src !! (offset inItems + i);
  dst ← h !! array outItems;
  y ← dst !! (offset outItems + i);
  Some (<[array outItems := <[offset outItems + i := MySQLCluster_DeepCopyInto x y]> dst]> h).

(** [for i := range *in], over the indices still to do. *)
Fixpoint copy_items (inItems outItems : slice) (indices : list nat)
    (h : gmap loc (list crv1.MySQLCluster)) : option (gmap loc (list crv1.MySQLCluster)) :=
  match indices with
  | [] => Some h
  | i :: indices => h ← copy_item inItems outItems i h; copy_items inItems outItems indices h
  end.

(** [in.DeepCopyInto(out)] on a list: what [*out] is afterwards, and the
    heap.  [make] allocates an array of zero values at a fresh address. *)
Definition MySQLClusterList_DeepCopyInto (in_ out : MySQLClusterList)
    (h : gmap loc (list crv1.MySQLCluster))
  : option (MySQLClusterList * gmap loc (list crv1.MySQLCluster)) :=
  let out := in_ in
  match Items in_ with
  | Some inItems =>
    let a := fresh (dom h) in
    let h := <[a := replicate (len inItems) new_MySQLCluster]> h in
    let outItems := {| array := a; offset := 0; len := len inItems |} in
    h ← copy_items inItems outItems (seq 0 (len inItems)) h;
    Some ({| ListTypeMeta := ListTypeMeta in_; ListMeta := ListMeta in_;
             Items := Some outItems |}, h)
  | None =>
    Some ({| ListTypeMeta := ListTypeMeta in_; ListMeta := ListMeta in_;
             Items := Items out |}, h)
  end.

(** [in.DeepCopy()] on a list pointer. *)
Definition MySQLClusterList_DeepCopy (in_ : option MySQLClusterList)
    (h : gmap loc (list crv1.MySQLCluster))
  : option (option MySQLClusterList * gmap loc (list crv1.MySQLCluster)) :=
  match in_ with
  | None => Some (None, h)
  | Some l =>
    let out := new_MySQLClusterList in
    r ← MySQLClusterList_DeepCopyInto l out h; Some (Some r.1, r.2)
  end.

(** The slice of a list is within an array of the heap. *)
Definition valid_Items (h : gmap loc (list crv1.MySQLCluster)) (l : MySQLClusterList) : Prop :=
  ∀ s, Items l = Some s →
       ∃ arr, h !! array s = Some arr ∧ (offset s + len s ≤ length arr)%nat.

(** * Properties *)

(** ** Errors *)

Example NewAggregate_nils : NewAggregate [None; None] = None.
Proof. reflexivity. Qed.

Example NewAggregate_drops_nil :
  NewAggregate [Some (errorString "create failed"); None]
    = Some (aggregate [errorString "create failed"]).
Proof. reflexivity. Qed.

Example causes_nested :
  causes (aggregate [aggregate [errorString "create failed"; NewNotFound "db"];
                     errorString "delete failed"])
    = [errorString "create failed"; NewNotFound "db"; errorString "delete failed"].
Proof. reflexivity. Qed.

Example IsAlreadyExists_aggregate :
  IsAlreadyExists (Some (aggregate [NewAlreadyExists "db"])) = false.
Proof. reflexivity. Qed.

(** A primary failure with the error of the cleanup that followed it. *)
Lemma NewAggregate_primary (err : error) (cleanupErr : option error) :
  NewAggregate [Some err; cleanupErr] = Some (aggregate (err :: option_list cleanupErr)).
Proof. by destruct cleanupErr. Qed.

(** The error a Create leaves after AlreadyExists has been let through. *)
Lemma swallowed_nil_iff (err : option error) :
  (if bool_decide (is_Some err) && negb (IsAlreadyExists err) then err else None) = None
  ↔ benign err.
Proof.
  unfold benign. destruct err as [e|]; simpl; [|by split; [left|]].
  destruct (IsAlreadyExists (Some e)); simpl.
  - by split; [right|].
  - split; [done|]. by intros [?|?].
Qed.

Lemma IsNotFound_causes (err : error) : IsNotFound (Some err) = true → causes err = [err].
Proof. by destruct err. Qed.

(** ** Steps of the operator *)

Section OperatorFacts.
Context {P : Type} `{!Interface P} `{!Externals}.

Implicit Types (w : World P) (cluster : crv1.MySQLCluster).

Lemma invoke_eq {R} (a : Action) (errOf : R → option error) (call : P → R * P) w :
  invoke a errOf call w =
    Return (call (client w)).1
      {| client := (call (client w)).2;
         events := events w ++ [{| action := a; failure := errOf (call (client w)).1 |}] |}.
Proof. unfold invoke. by destruct (call (client w)). Qed.

Lemma logged_app w w' evs : events w' = events w ++ evs → logged w w' = evs.
Proof. unfold logged. intros ->. by rewrite drop_app_length. Qed.

(** A delete is one call; it returns what the platform returned. *)
Lemma removeService_eq cluster w :
  let r := Services_Delete (crv1.Namespace cluster) (ServiceName (crv1.Name cluster))
             (client w) in
  removeService cluster w =
    Return r.1
      {| client := r.2;
         events := events w ++
           [{| action := DeleteService (crv1.Namespace cluster) (ServiceName (crv1.Name cluster));
               failure := r.1 |}] |}.
Proof. unfold removeService, ServicesDelete. by rewrite invoke_eq. Qed.

Lemma removeReadService_eq cluster w :
  let r := Services_Delete (crv1.Namespace cluster) (ReadServiceName (crv1.Name cluster))
             (client w) in
  removeReadService cluster w =
    Return r.1
      {| client := r.2;
         events := events w ++
           [{| action :=
                 DeleteService (crv1.Namespace cluster) (ReadServiceName (crv1.Name cluster));
               failure := r.1 |}] |}.
Proof. unfold removeReadService, ServicesDelete. by rewrite invoke_eq. Qed.

(** createService renders, then creates; it gives back the render error,
    or the Create error unless that is AlreadyExists. *)
Lemma createService_eq cluster filename w :
  createService cluster filename w =
    match serviceForCluster cluster filename with
    | (_, Some err) => Return (Some err) w
    | (service, None) =>
      let r := Services_Create (crv1.Namespace cluster) service (client w) in
      Return (if bool_decide (is_Some r.1.2) && negb (IsAlreadyExists r.1.2)
              then r.1.2 else None)
        {| client := r.2;
           events := events w ++
             [{| action := CreateService (crv1.Namespace cluster) service;
                 failure := r.1.2 |}] |}
    end.
Proof.
  unfold createService. destruct (serviceForCluster cluster filename) as [service [err|]];
    [done|].
  unfold bind, ServicesCreate. rewrite invoke_eq.
  destruct (Services_Create _ _ _) as [[o err] p]; simpl. by case_match.
Qed.

Lemma createService_returns cluster filename : returns (createService cluster filename).
Proof.
  intros w. rewrite createService_eq.
  destruct (serviceForCluster cluster filename) as [service [err|]]; eauto.
Qed.

(** When createService gives nil, the endpoint was created or was there. *)
Lemma createService_nil cluster filename w w1 :
  createService cluster filename w = Return None w1 →
  ∃ service r p,
    serviceForCluster cluster filename = (service, None) ∧
    Services_Create (crv1.Namespace cluster) service (client w) = (r, p) ∧
    benign r.2 ∧
    w1 = {| client := p;
            events := events w ++
              [{| action := CreateService (crv1.Namespace cluster) service;
                  failure := r.2 |}] |}.
Proof.
  rewrite createService_eq.
  destruct (serviceForCluster cluster filename) as [service [err|]]; [done|].
  destruct (Services_Create _ _ _) as [[o err] p] eqn:Hc; simpl.
  intros Hr. exists service, (o, err), p. simpl. split_and!; [done..| |].
  - destruct err as [err|]; [|by left]. right.
    destruct (IsAlreadyExists (Some err)); [done|].
    rewrite bool_decide_eq_true_2 in Hr by eauto. by simplify_eq/=.
  - by case_match; simplify_eq/=.
Qed.

(** When createService gives an error after a Create call, the call failed
    with that error and the error is not AlreadyExists. *)
Lemma createService_create_failed cluster filename service o err p w :
  serviceForCluster cluster filename = (service, None) →
  Services_Create (crv1.Namespace cluster) service (client w) = ((o, Some err), p) →
  IsAlreadyExists (Some err) = false →
  createService cluster filename w =
    Return (Some err)
      {| client := p;
         events := events w ++
           [{| action := CreateService (crv1.Namespace cluster) service;
               failure := Some err |}] |}.
Proof.
  intros Hs Hc Hae. rewrite createService_eq, Hs, Hc; simpl. by rewrite Hae.
Qed.

Lemma createService_created cluster filename service o err p w :
  serviceForCluster cluster filename = (service, None) →
  Services_Create (crv1.Namespace cluster) service (client w) = ((o, err), p) →
  benign err →
  createService cluster filename w =
    Return None
      {| client := p;
         events := events w ++
           [{| action := CreateService (crv1.Namespace cluster) service;
               failure := err |}] |}.
Proof.
  intros Hs Hc Hb. rewrite createService_eq, Hs, Hc; simpl.
  destruct Hb as [->| ->]; [done|]. by rewrite andb_false_r.
Qed.

(** createStatefulSet after the backup has been looked up. *)
Lemma createStatefulSet_eq cluster w :
  createStatefulSet cluster w =
    let create backup w :=
      match statefulSetForCluster cluster backup with
      | (_, Some err) => Return (Some err) w
      | (statefulSet, None) =>
        let r := StatefulSets_Create (crv1.Namespace cluster) statefulSet (client w) in
        Return (if bool_decide (is_Some r.1.2) && negb (IsAlreadyExists r.1.2)
                then r.1.2 else None)
          {| client := r.2;
             events := events w ++
               [{| action := CreateStatefulSet (crv1.Namespace cluster) statefulSet;
                   failure := r.1.2 |}] |}
      end in
    if bool_decide (crv1.FromBackup (crv1.Spec cluster) ≠ "") then
      let g := MySQLBackupInstances_Get (crv1.Namespace cluster)
                 (crv1.FromBackup (crv1.Spec cluster)) (client w) in
      let w1 := {| client := g.2;
                   events := events w ++
                     [{| action := GetMySQLBackupInstance (crv1.Namespace cluster)
                                     (crv1.FromBackup (crv1.Spec cluster));
                         failure := g.1.2 |}] |} in
      match g.1.2 with
      | Some err => Return (Some err) w1
      | None => create g.1.1 w1
      end
    else create None w.
Proof.
  assert (∀ backup w,
    (let '(statefulSet, err) := statefulSetForCluster cluster backup in
     match err with
     | Some _ => ret err
     | None =>
       (let* (_, err) := StatefulSetsCreate (crv1.Namespace cluster) statefulSet in
        if bool_decide (is_Some err) && negb (IsAlreadyExists err) then ret err
        else ret None)%op
     end) w =
    match statefulSetForCluster cluster backup with
    | (_, Some err) => Return (Some err) w
    | (statefulSet, None) =>
      let r := StatefulSets_Create (crv1.Namespace cluster) statefulSet (client w) in
      Return (if bool_decide (is_Some r.1.2) && negb (IsAlreadyExists r.1.2)
              then r.1.2 else None)
        {| client := r.2;
           events := events w ++
             [{| action := CreateStatefulSet (crv1.Namespace cluster) statefulSet;
                 failure := r.1.2 |}] |}
    end) as Hcreate.
  { intros backup w0. destruct (statefulSetForCluster cluster backup) as [set [err|]]; [done|].
    unfold bind, StatefulSetsCreate. rewrite invoke_eq.
    destruct (StatefulSets_Create _ _ _) as [[o err] p]; simpl. by case_match. }
  unfold createStatefulSet. case_bool_decide; [|apply Hcreate].
  unfold bind, MySQLBackupInstancesGet. rewrite invoke_eq.
  destruct (MySQLBackupInstances_Get _ _ _) as [[backup [err|]] p]; simpl; [done|].
  apply Hcreate.
Qed.

Lemma createStatefulSet_returns cluster : returns (createStatefulSet cluster).
Proof.
  intros w. rewrite createStatefulSet_eq. cbv zeta.
  repeat (case_match; eauto).
Qed.

(** A backup that cannot be fetched ends createStatefulSet with the error
    of the Get, before anything is rendered or created. *)
Lemma createStatefulSet_backup_failed cluster backup err p w :
  crv1.FromBackup (crv1.Spec cluster) ≠ "" →
  MySQLBackupInstances_Get (crv1.Namespace cluster) (crv1.FromBackup (crv1.Spec cluster))
    (client w) = ((backup, Some err), p) →
  createStatefulSet cluster w =
    Return (Some err)
      {| client := p;
         events := events w ++
           [{| action := GetMySQLBackupInstance (crv1.Namespace cluster)
                           (crv1.FromBackup (crv1.Spec cluster));
               failure := Some err |}] |}.
Proof.
  intros Hfrom Hget. rewrite createStatefulSet_eq. cbv zeta.
  rewrite bool_decide_eq_true_2 by done. by rewrite Hget.
Qed.

(** When createStatefulSet gives nil: the backup, if one is asked for, was
    fetched, the stateful set rendered, and its Create was benign. *)
Lemma createStatefulSet_nil cluster w w1 :
  createStatefulSet cluster w = Return None w1 →
  ∃ backup statefulSet r p wg,
    (if bool_decide (crv1.FromBackup (crv1.Spec cluster) ≠ "")
     then ∃ pg,
       MySQLBackupInstances_Get (crv1.Namespace cluster)
         (crv1.FromBackup (crv1.Spec cluster)) (client w) = ((backup, None), pg) ∧
       wg = {| client := pg;
               events := events w ++
                 [{| action := GetMySQLBackupInstance (crv1.Namespace cluster)
                                 (crv1.FromBackup (crv1.Spec cluster));
                     failure := None |}] |}
     else backup = None ∧ wg = w) ∧
    statefulSetForCluster cluster backup = (statefulSet, None) ∧
    StatefulSets_Create (crv1.Namespace cluster) statefulSet (client wg) = (r, p) ∧
    benign r.2 ∧
    w1 = {| client := p;
            events := events wg ++
              [{| action := CreateStatefulSet (crv1.Namespace cluster) statefulSet;
                  failure := r.2 |}] |}.
Proof.
  unfold createStatefulSet. case_bool_decide as Hfrom.
  - unfold bind at 1, MySQLBackupInstancesGet. rewrite invoke_eq.
    destruct (MySQLBackupInstances_Get _ _ _) as [[backup [err|]] pg] eqn:Hget; simpl;
      [intros ?; simplify_eq|].
    destruct (statefulSetForCluster cluster backup) as [set [err|]] eqn:Hset;
      [intros ?; simplify_eq|].
    unfold bind, StatefulSetsCreate. rewrite invoke_eq.
    destruct (StatefulSets_Create _ _ _) as [[o err] p] eqn:Hc; simpl. intros Hr.
    eexists backup, set, (o, err), p, _. split; [by eauto|]. simpl.
    split_and!; [done..| |].
    + apply swallowed_nil_iff. by case_match; unfold ret in Hr; simplify_eq.
    + by case_match; unfold ret in Hr; simplify_eq.
  - destruct (statefulSetForCluster cluster None) as [set [err|]] eqn:Hset;
      [intros ?; simplify_eq|].
    unfold bind, StatefulSetsCreate. rewrite invoke_eq.
    destruct (StatefulSets_Create _ _ _) as [[o err] p] eqn:Hc; simpl. intros Hr.
    eexists None, set, (o, err), p, w. simpl. split_and!; [done..| |].
    + apply swallowed_nil_iff. by case_match; unfold ret in Hr; simplify_eq.
    + by case_match; unfold ret in Hr; simplify_eq.
Qed.

Lemma createStatefulSet_created cluster backup statefulSet o err p w wg :
  (if bool_decide (crv1.FromBackup (crv1.Spec cluster) ≠ "")
   then ∃ pg,
     MySQLBackupInstances_Get (crv1.Namespace cluster)
       (crv1.FromBackup (crv1.Spec cluster)) (client w) = ((backup, None), pg) ∧
     wg = {| client := pg;
             events := events w ++
               [{| action := GetMySQLBackupInstance (crv1.Namespace cluster)
                               (crv1.FromBackup (crv1.Spec cluster));
                   failure := None |}] |}
   else backup = None ∧ wg = w) →
  statefulSetForCluster cluster backup = (statefulSet, None) →
  StatefulSets_Create (crv1.Namespace cluster) statefulSet (client wg) = ((o, err), p) →
  benign err →
  createStatefulSet cluster w =
    Return None
      {| client := p;
         events := events wg ++
           [{| action := CreateStatefulSet (crv1.Namespace cluster) statefulSet;
               failure := err |}] |}.
Proof.
  intros Hb Hs Hc Hbenign.
  unfold createStatefulSet. case_bool_decide as Hfrom;
    apply swallowed_nil_iff in Hbenign.
  - destruct Hb as (pg & Hget & ->). unfold bind at 1, MySQLBackupInstancesGet.
    rewrite invoke_eq, Hget. simpl. rewrite Hs.
    unfold bind, StatefulSetsCreate. rewrite invoke_eq, Hc. simpl.
    by case_match; unfold ret; simplify_eq.
  - destruct Hb as [-> ->]. rewrite Hs.
    unfold bind, StatefulSetsCreate. rewrite invoke_eq, Hc. simpl.
    by case_match; unfold ret; simplify_eq.
Qed.

(** When the Create of the stateful set fails with an error that is not
    AlreadyExists, createStatefulSet gives back that error. *)
Lemma createStatefulSet_create_failed cluster backup statefulSet o err p w wg :
  (if bool_decide (crv1.FromBackup (crv1.Spec cluster) ≠ "")
   then ∃ pg,
     MySQLBackupInstances_Get (crv1.Namespace cluster)
       (crv1.FromBackup (crv1.Spec cluster)) (client w) = ((backup, None), pg) ∧
     wg = {| client := pg;
             events := events w ++
               [{| action := GetMySQLBackupInstance (crv1.Namespace cluster)
                               (crv1.FromBackup (crv1.Spec cluster));
                   failure := None |}] |}
   else backup = None ∧ wg = w) →
  statefulSetForCluster cluster backup = (statefulSet, None) →
  StatefulSets_Create (crv1.Namespace cluster) statefulSet (client wg) = ((o, Some err), p) →
  IsAlreadyExists (Some err) = false →
  createStatefulSet cluster w =
    Return (Some err)
      {| client := p;
         events := events wg ++
           [{| action := CreateStatefulSet (crv1.Namespace cluster) statefulSet;
               failure := Some err |}] |}.
Proof.
  intros Hb Hs Hc Hae.
  unfold createStatefulSet. case_bool_decide as Hfrom.
  - destruct Hb as (pg & Hget & ->). unfold bind at 1, MySQLBackupInstancesGet.
    rewrite invoke_eq, Hget. simpl. rewrite Hs.
    unfold bind, StatefulSetsCreate. rewrite invoke_eq, Hc. simpl. by rewrite Hae.
  - destruct Hb as [-> ->]. rewrite Hs.
    unfold bind, StatefulSetsCreate. rewrite invoke_eq, Hc. simpl. by rewrite Hae.
Qed.

(** Every call of AddCluster is one of the four runs. *)
Lemma AddCluster_run_intro cluster w :
  AddCluster_run (WithDefaults cluster) w (AddCluster cluster w).
Proof.
  unfold AddCluster, bind.
  destruct (createService_returns (WithDefaults cluster) serviceTemplate w)
    as ([err|] & w1 & H1); rewrite H1; [by constructor|].
  destruct (createService_returns (WithDefaults cluster) serviceReadTemplate w1)
    as ([err|] & w2 & H2); rewrite H2.
  { rewrite removeService_eq. cbv zeta.
    eapply run_read_service_failed; [done..|]. by rewrite removeService_eq. }
  destruct (createStatefulSet_returns (WithDefaults cluster) w2)
    as ([err|] & w3 & H3); rewrite H3; [|by econstructor].
  rewrite removeService_eq. cbv zeta. rewrite removeReadService_eq. cbv zeta.
  eapply run_statefulSet_failed; [done..| |].
  - by rewrite removeService_eq.
  - by rewrite removeReadService_eq.
Qed.

(** The rollback after a failed createStatefulSet, whatever made it fail:
    the two services are deleted, read-write first, and the error is the
    aggregate of the aggregate of the failure and the first deletion's
    error with the second deletion's error. *)
Lemma AddCluster_statefulSet_rollback cluster err w w1 w2 w3 :
  let c := WithDefaults cluster in
  let ns := crv1.Namespace c in
  let d1 := Services_Delete ns (ServiceName (crv1.Name c)) (client w3) in
  let d2 := Services_Delete ns (ReadServiceName (crv1.Name c)) d1.2 in
  createService c serviceTemplate w = Return None w1 →
  createService c serviceReadTemplate w1 = Return None w2 →
  createStatefulSet c w2 = Return (Some err) w3 →
  AddCluster cluster w =
    Return (c, Some (aggregate (aggregate (err :: option_list d1.1) :: option_list d2.1)))
      {| client := d2.2;
         events := events w3 ++
           [{| action := DeleteService ns (ServiceName (crv1.Name c)); failure := d1.1 |};
            {| action := DeleteService ns (ReadServiceName (crv1.Name c));
               failure := d2.1 |}] |}.
Proof.
  intros c ns d1 d2 H1 H2 H3. unfold AddCluster, bind. fold c. rewrite H1, H2, H3.
  rewrite removeService_eq. cbv zeta. rewrite removeReadService_eq. cbv zeta. simpl.
  fold ns d1 d2. rewrite !NewAggregate_primary. by rewrite <- app_assoc.
Qed.

(** ** What the steps log *)

(** A run of createService logs nothing and fails (the template did not
    render), or logs one Create and gives nil exactly when that Create was
    benign. *)
Lemma createService_run cluster filename w r w1 :
  createService cluster filename w = Return r w1 →
  (events w1 = events w ∧ is_Some r) ∨
  (∃ ev, events w1 = events w ++ [ev] ∧ is_create (action ev) = true ∧
         (r = None ↔ benign (failure ev))).
Proof.
  rewrite createService_eq.
  destruct (serviceForCluster cluster filename) as [service [err|]].
  { intros ?; simplify_eq. left. eauto. }
  destruct (Services_Create _ _ _) as [[o err] p]; simpl. intros ?; simplify_eq. right.
  eexists. split_and!; [done..|]. apply swallowed_nil_iff.
Qed.

(** A run of createStatefulSet first logs the Get of the backup, if one is
    asked for; then it fails without a Create, or logs one Create and gives
    nil exactly when that Create was benign. *)
Lemma createStatefulSet_run cluster w r w1 :
  createStatefulSet cluster w = Return r w1 →
  ∃ gets, Forall (λ ev, is_get_backup (action ev) = true) gets ∧
    ((events w1 = events w ++ gets ∧ is_Some r) ∨
     (∃ ev, events w1 = events w ++ gets ++ [ev] ∧ is_create (action ev) = true ∧
            (r = None ↔ benign (failure ev)))).
Proof.
  rewrite createStatefulSet_eq. cbv zeta.
  assert (∀ backup w0 gets r' w',
    events w0 = events w ++ gets →
    match statefulSetForCluster cluster backup with
    | (_, Some err) => Return (Some err) w0
    | (statefulSet, None) =>
      Return (if bool_decide (is_Some (StatefulSets_Create (crv1.Namespace cluster)
                                         statefulSet (client w0)).1.2)
                 && negb (IsAlreadyExists (StatefulSets_Create (crv1.Namespace cluster)
                                             statefulSet (client w0)).1.2)
              then (StatefulSets_Create (crv1.Namespace cluster) statefulSet (client w0)).1.2
              else None)
        {| client := (StatefulSets_Create (crv1.Namespace cluster) statefulSet (client w0)).2;
           events := events w0 ++
             [{| action := CreateStatefulSet (crv1.Namespace cluster) statefulSet;
                 failure := (StatefulSets_Create (crv1.Namespace cluster) statefulSet
                               (client w0)).1.2 |}] |}
    end = Return r' w' →
    (events w' = events w ++ gets ∧ is_Some r') ∨
    (∃ ev, events w' = events w ++ gets ++ [ev] ∧ is_create (action ev) = true ∧
           (r' = None ↔ benign (failure ev)))) as Hcreate.
  { intros backup w0 gets r' w' Hw0.
    destruct (statefulSetForCluster cluster backup) as [set [err|]].
    { intros ?; simplify_eq. left. eauto. }
    destruct (StatefulSets_Create _ _ _) as [[o err] p]; simpl. intros ?; simplify_eq. right.
    eexists. split_and!; [by rewrite Hw0, <- app_assoc|done|]. apply swallowed_nil_iff. }
  case_bool_decide.
  - destruct (MySQLBackupInstances_Get _ _ _) as [[backup [err|]] p]; simpl.
    + intros ?; simplify_eq. eexists (_ :: nil). split; [|by left; eauto].
      by repeat constructor.
    + intros Hrun. eexists (_ :: nil).
      split; [|by eapply (Hcreate backup {| client := p |}); [|exact Hrun]].
      by repeat constructor.
  - intros Hrun. exists []. split; [constructor|]. eapply Hcreate; [|done].
    by rewrite app_nil_r.
Qed.

Lemma removeService_run cluster w removeErr w1 :
  removeService cluster w = Return removeErr w1 →
  events w1 = events w ++
    [{| action := DeleteService (crv1.Namespace cluster) (ServiceName (crv1.Name cluster));
        failure := removeErr |}].
Proof. rewrite removeService_eq. cbv zeta. by intros ?; simplify_eq. Qed.

Lemma removeReadService_run cluster w removeErr w1 :
  removeReadService cluster w = Return removeErr w1 →
  events w1 = events w ++
    [{| action := DeleteService (crv1.Namespace cluster) (ReadServiceName (crv1.Name cluster));
        failure := removeErr |}].
Proof. rewrite removeReadService_eq. cbv zeta. by intros ?; simplify_eq. Qed.

(** ** AddCluster: rollback *)


(** C2.  When both createService calls gave nil (each service was created
    or was already there, [createService_nil]) and createStatefulSet fails
    (it gives back every failure but AlreadyExists, the error of a failed
    Create among them, [createStatefulSet_create_failed]), AddCluster ends
    with two Delete calls, of the read-write service and then of the read
    service, and the causes of the returned error are those of the failure,
    then the error of the first deletion if it failed, then the error of the
    second if it failed: three at most when the errors are not aggregates
    themselves. *)
Theorem AddCluster_statefulSet_failure_reverts_both cluster err w w1 w2 w3 :
  let c := WithDefaults cluster in
  let ns := crv1.Namespace c in
  let d1 := Services_Delete ns (ServiceName (crv1.Name c)) (client w3) in
  let d2 := Services_Delete ns (ReadServiceName (crv1.Name c)) d1.2 in
  createService c serviceTemplate w = Return None w1 →
  createService c serviceReadTemplate w1 = Return None w2 →
  createStatefulSet c w2 = Return (Some err) w3 →
  ∃ composite w5,
    AddCluster cluster w = Return (c, Some composite) w5 ∧
    client w5 = d2.2 ∧
    events w5 = events w3 ++
      [{| action := DeleteService ns (ServiceName (crv1.Name c)); failure := d1.1 |};
       {| action := DeleteService ns (ReadServiceName (crv1.Name c)); failure := d2.1 |}] ∧
    composite = aggregate (aggregate (err :: option_list d1.1) :: option_list d2.1) ∧
    causes composite =
      causes err ++ flat_map causes (option_list d1.1) ++ flat_map causes (option_list d2.1).
Proof.
  intros c ns d1 d2 H1 H2 H3. eexists _, _. split.
  { by apply (AddCluster_statefulSet_rollback cluster err w w1 w2 w3). }
  split_and!; [done..|]. simpl. by rewrite <- app_assoc.
Qed.

(** C3, as the code has it.  For a cluster to be restored from a backup,
    when the backup cannot be fetched createStatefulSet gives back exactly
    the error of the Get and creates nothing; AddCluster then deletes the
    two services like after any other failure of createStatefulSet, and
    returns that error wrapped with the errors of the deletions. *)
Theorem AddCluster_backup_failure_reverts_both cluster backup err w w1 w2 p3 :
  let c := WithDefaults cluster in
  let ns := crv1.Namespace c in
  let get := {| action := GetMySQLBackupInstance ns (crv1.FromBackup (crv1.Spec c));
                failure := Some err |} in
  let d1 := Services_Delete ns (ServiceName (crv1.Name c)) p3 in
  let d2 := Services_Delete ns (ReadServiceName (crv1.Name c)) d1.2 in
  crv1.FromBackup (crv1.Spec c) ≠ "" →
  createService c serviceTemplate w = Return None w1 →
  createService c serviceReadTemplate w1 = Return None w2 →
  MySQLBackupInstances_Get ns (crv1.FromBackup (crv1.Spec c)) (client w2)
    = ((backup, Some err), p3) →
  createStatefulSet c w2 = Return (Some err) {| client := p3; events := events w2 ++ [get] |} ∧
  AddCluster cluster w =
    Return (c, Some (aggregate (aggregate (err :: option_list d1.1) :: option_list d2.1)))
      {| client := d2.2;
         events := events w2 ++
           [get;
            {| action := DeleteService ns (ServiceName (crv1.Name c)); failure := d1.1 |};
            {| action := DeleteService ns (ReadServiceName (crv1.Name c));
               failure := d2.1 |}] |}.
Proof.
  intros c ns get d1 d2 Hfrom H1 H2 Hget.
  pose proof (createStatefulSet_backup_failed c backup err p3 w2 Hfrom Hget) as H3.
  split; [done|].
  rewrite (AddCluster_statefulSet_rollback cluster err w w1 w2 _ H1 H2 H3). simpl.
  by rewrite <- app_assoc.
Qed.

(** ** AddCluster: what every run logs *)

Ltac log_steps :=
  repeat match goal with
  | H : createService _ _ _ = Return _ _ |- _ =>
    apply createService_run in H; destruct H as [[? ?]|(? & ? & ? & ?)]
  | H : createStatefulSet _ _ = Return _ _ |- _ =>
    apply createStatefulSet_run in H; destruct H as (? & ? & [[? ?]|(? & ? & ? & ?)])
  | H : removeService _ _ = Return _ _ |- _ => apply removeService_run in H
  | H : removeReadService _ _ = Return _ _ |- _ => apply removeReadService_run in H
  end.

Ltac log_of_run :=
  unfold logged in *;
  repeat match goal with
  | H : events ?w = _ |- context [events ?w] => rewrite H
  | H : events ?w = _, H' : context [events ?w] |- _ => rewrite H in H'
  end;
  rewrite <- ?app_assoc, ?drop_app_length, ?drop_all in *.

(** C8.  AddCluster always returns, the cluster object it leaves is the
    defaulted one, so its status is the one it came with as long as
    defaulting leaves the status alone, and no call it makes is an update of
    the cluster resource. *)
Theorem AddCluster_writes_no_status cluster w :
  crv1.Status (WithDefaults cluster) = crv1.Status cluster →
  ∃ c' r w',
    AddCluster cluster w = Return (c', r) w' ∧
    crv1.State (crv1.Status c') = crv1.State (crv1.Status cluster) ∧
    crv1.Message (crv1.Status c') = crv1.Message (crv1.Status cluster) ∧
    Forall (λ ev, is_status_write (action ev) = false) (logged w w').
Proof.
  intros Hstatus. pose proof (AddCluster_run_intro cluster w) as Hrun.
  assert (∀ evs, Forall (λ ev, is_get_backup (action ev) = true) evs →
                 Forall (λ ev, is_status_write (action ev) = false) evs) as Hgets.
  { intros evs Hevs. eapply Forall_impl; [done|]. intros [a e]; simpl. by destruct a. }
  assert (∀ ev, is_create (action ev) = true → is_status_write (action ev) = false)
    as Hcreate.
  { intros [a e]; simpl. by destruct a. }
  inversion Hrun as [err w1 H1 Heq|err removeErr w1 w2 w3 H1 H2 H3 Heq
                    |err removeErr removeReadErr w1 w2 w3 w4 w5 H1 H2 H3 H4 H5 Heq
                    |w1 w2 w3 H1 H2 H3 Heq];
    eexists _, _, _; (split; [done|]); rewrite Hstatus; (split_and!; [done..|]);
    log_steps; log_of_run; rewrite ?Forall_app; repeat split;
    repeat (apply Forall_cons; split); try apply Forall_nil; auto.
Qed.

Lemma create_not_delete ev ns name e :
  is_create (action ev) = true → ev ≠ {| action := DeleteService ns name; failure := e |}.
Proof. by intros Hc ->. Qed.

Lemma gets_not_delete gets ns name e :
  Forall (λ ev, is_get_backup (action ev) = true) gets →
  {| action := DeleteService ns name; failure := e |} ∉ gets.
Proof. intros Hgets Hin. rewrite Forall_forall in Hgets. by apply Hgets in Hin. Qed.

(** C7, as the code has it.  A compensating delete that comes back with
    NotFound is treated like any other failed delete: in every run of
    AddCluster, the NotFound error of a logged Delete of a service is among
    the causes of the error AddCluster returns. *)
Theorem AddCluster_aggregates_NotFound cluster w c' r w' ns name e :
  AddCluster cluster w = Return (c', r) w' →
  {| action := DeleteService ns name; failure := Some e |} ∈ logged w w' →
  IsNotFound (Some e) = true →
  ∃ composite, r = Some composite ∧ e ∈ causes composite.
Proof.
  intros Hadd Hin Hnf. pose proof (AddCluster_run_intro cluster w) as Hrun.
  rewrite Hadd in Hrun. apply IsNotFound_causes in Hnf.
  inversion Hrun as [err w1 H1|err removeErr w1 w2 w3 H1 H2 H3
                    |err removeErr removeReadErr w1 w2 w3 w4 w5 H1 H2 H3 H4 H5
                    |w1 w2 w3 H1 H2 H3]; subst;
    log_steps; log_of_run;
    repeat match goal with
    | H : _ ∈ [] |- _ => by apply elem_of_nil in H
    | H : _ ∈ _ ++ _ |- _ => apply elem_of_app in H; destruct H
    | H : _ ∈ _ :: _ |- _ => apply elem_of_cons in H; destruct H
    | H : is_create (action ?ev) = true, H' : _ = ?ev |- _ =>
      by destruct (create_not_delete _ _ _ _ H (eq_sym H'))
    | H : Forall _ ?gets, H' : _ ∈ ?gets |- _ => by destruct (gets_not_delete _ _ _ _ H H')
    end;
    simplify_eq; rewrite ?NewAggregate_primary; eexists; (split; [done|]); simpl;
    rewrite ?elem_of_app, Hnf, ?elem_of_cons; auto.
Qed.

(** ** AddCluster: objects that are already there *)

Lemma creates_app evs1 evs2 : creates (evs1 ++ evs2) = creates evs1 ++ creates evs2.
Proof. apply filter_app. Qed.

Lemma creates_create ev : is_create (action ev) = true → creates [ev] = [ev].
Proof. intros Hc. unfold creates. by rewrite filter_cons_True. Qed.

Lemma creates_gets gets :
  Forall (λ ev, is_get_backup (action ev) = true) gets → creates gets = [].
Proof.
  induction 1 as [|[a e] gets Ha _ IH]; [done|]. unfold creates in *.
  rewrite filter_cons_False; [done|]. simpl in *. by destruct a.
Qed.

(** Whenever a run of AddCluster made its three Create calls and each of
    them succeeded or failed with AlreadyExists, AddCluster returned nil and
    made no other call than the three Creates and the Get of the backup. *)
Lemma AddCluster_benign_creates cluster w c' r w' :
  AddCluster cluster w = Return (c', r) w' →
  length (creates (logged w w')) = 3 →
  Forall (λ ev, is_create (action ev) = true → benign (failure ev)) (logged w w') →
  r = None ∧
  Forall (λ ev, is_create (action ev) = true ∨ is_get_backup (action ev) = true)
    (logged w w').
Proof.
  intros Hadd Hcount Hbenign. pose proof (AddCluster_run_intro cluster w) as Hrun.
  rewrite Hadd in Hrun.
  inversion Hrun as [err w1 H1|err removeErr w1 w2 w3 H1 H2 H3
                    |err removeErr removeReadErr w1 w2 w3 w4 w5 H1 H2 H3 H4 H5
                    |w1 w2 w3 H1 H2 H3]; subst;
    log_steps; log_of_run;
    rewrite ?creates_app in Hcount;
    repeat match goal with
    | H : is_create (action ?ev) = true |- _ =>
      rewrite (creates_create ev H) in Hcount
    | H : Forall _ ?gets |- _ => rewrite (creates_gets gets H) in Hcount
    end;
    rewrite ?length_app in Hcount; simpl in Hcount; try lia.
  - (* the third Create failed: it was not benign *)
    rewrite !Forall_app, !Forall_singleton in Hbenign.
    destruct Hbenign as (_ & _ & _ & Hb & _).
    match goal with H : Some err = None ↔ _ |- _ => by apply H in Hb end.
  - split; [done|]. rewrite !Forall_app, !Forall_singleton. split_and!; auto.
    eapply Forall_impl; [done|]. auto.
Qed.

(** ** UpdateCluster *)

Lemma logs_only_ret {A} (ok : Event → Prop) (a : A) : logs_only ok (ret a : M P A).
Proof. intros w. exists []. split; [constructor|]. simpl. by rewrite app_nil_r. Qed.

Lemma logs_only_panic {A} (ok : Event → Prop) : logs_only ok (panic : M P A).
Proof. intros w. exists []. split; [constructor|]. simpl. by rewrite app_nil_r. Qed.

Lemma logs_only_invoke {R} (ok : Event → Prop) a (errOf : R → option error)
    (call : P → R * P) :
  (∀ err, ok {| action := a; failure := err |}) → logs_only ok (invoke a errOf call).
Proof.
  intros Hok w. rewrite invoke_eq. eexists (_ :: nil). split; [|done].
  by repeat constructor.
Qed.

Lemma logs_only_bind {A B} (ok : Event → Prop) (m : M P A) (k : A → M P B) :
  logs_only ok m → (∀ a, logs_only ok (k a)) → logs_only ok (bind m k).
Proof.
  intros Hm Hk w. unfold bind. destruct (Hm w) as (evs1 & Hok1 & Hev1).
  destruct (m w) as [a w1|w1]; [|by eauto].
  destruct (Hk a w1) as (evs2 & Hok2 & Hev2). exists (evs1 ++ evs2).
  split; [by apply Forall_app|].
  destruct (k a w1); by rewrite Hev2, Hev1, <- app_assoc.
Qed.

(** updateService reads and updates a service; it never touches the
    stateful set. *)
Lemma updateService_logs cluster serviceInterface template :
  logs_only (λ ev, is_statefulSet_update (action ev) = false)
    (updateService cluster serviceInterface template).
Proof.
  unfold updateService. destruct (serviceForCluster cluster template) as [service [err|]];
    [apply logs_only_ret|].
  apply logs_only_bind; [by apply logs_only_invoke|]. intros [[oldService|] err];
    [|apply logs_only_panic].
  apply logs_only_bind; [by apply logs_only_invoke|]. intros [o err']. apply logs_only_ret.
Qed.

Lemma updateServices_logs cluster :
  logs_only (λ ev, is_statefulSet_update (action ev) = false) (updateServices cluster).
Proof.
  unfold updateServices. apply logs_only_bind; [apply updateService_logs|].
  intros [err|]; [apply logs_only_ret|apply updateService_logs].
Qed.

Lemma setClusterState_eq cluster state message w :
  let c := set_Status cluster state message in
  let u := MySQLClusters_Update (metav1.Namespace (crv1.ObjectMeta c)) c (client w) in
  setClusterState cluster state message w =
    Return (c, u.1.2)
      {| client := u.2;
         events := events w ++
           [{| action := UpdateMySQLCluster (metav1.Namespace (crv1.ObjectMeta c)) c;
               failure := u.1.2 |}] |}.
Proof.
  unfold setClusterState, bind, MySQLClustersUpdate. rewrite invoke_eq. cbv zeta.
  by destruct (MySQLClusters_Update _ _ _) as [[o err] p].
Qed.

(** C4.  When updateServices fails, UpdateCluster sets the status of the
    cluster object to state "Failed update" with the message of the Service
    update failure, sends that object to the platform as its last call, makes
    no call that updates the stateful set, and returns the aggregate of the
    update error followed, when the status write failed, by its error. *)
Theorem UpdateCluster_service_failure newCluster err w w1 :
  let c := WithDefaults newCluster in
  let failed :=
    set_Status c "Failed update" "The provided patch resulted in a Service update failure" in
  let ns := metav1.Namespace (crv1.ObjectMeta failed) in
  let u := MySQLClusters_Update ns failed (client w1) in
  updateServices c w = Return (Some err) w1 →
  ∃ w2,
    UpdateCluster newCluster w =
      Return (failed, Some (aggregate (err :: option_list u.1.2))) w2 ∧
    crv1.State (crv1.Status failed) = "Failed update" ∧
    crv1.Message (crv1.Status failed) =
      "The provided patch resulted in a Service update failure" ∧
    client w2 = u.2 ∧
    events w2 = events w1 ++ [{| action := UpdateMySQLCluster ns failed; failure := u.1.2 |}] ∧
    Forall (λ ev, is_statefulSet_update (action ev) = false) (logged w w2).
Proof.
  intros c failed ns u Hupdate. eexists. split.
  { unfold UpdateCluster, bind. fold c. rewrite Hupdate, setClusterState_eq. cbv zeta.
    fold failed ns u. by rewrite NewAggregate_primary. }
  split_and!; [done..|].
  destruct (updateServices_logs c w) as (evs & Hlog & Hev). rewrite Hupdate in Hev.
  unfold logged. cbn [events]. rewrite Hev, <- app_assoc, drop_app_length.
  apply Forall_app. split; [done|]. by repeat constructor.
Qed.

(** C5.  When updateServices and updateStatefulSet both give nil,
    UpdateCluster sets the status of the cluster object to state "Successful
    update" with an empty message, sends it to the platform, and returns the
    error of that status write as it is. *)
Theorem UpdateCluster_success newCluster w w1 w2 :
  let c := WithDefaults newCluster in
  let updated := set_Status c "Successful update" "" in
  let ns := metav1.Namespace (crv1.ObjectMeta updated) in
  let u := MySQLClusters_Update ns updated (client w2) in
  updateServices c w = Return None w1 →
  updateStatefulSet c w1 = Return None w2 →
  UpdateCluster newCluster w =
    Return (updated, u.1.2)
      {| client := u.2;
         events := events w2 ++
           [{| action := UpdateMySQLCluster ns updated; failure := u.1.2 |}] |} ∧
  crv1.State (crv1.Status updated) = "Successful update" ∧
  crv1.Message (crv1.Status updated) = "".
Proof.
  intros c updated ns u Hservices Hset. split; [|done].
  unfold UpdateCluster, bind. fold c. by rewrite Hservices, Hset, setClusterState_eq.
Qed.

(** C10, as the code has it.  updateService gives back the error of the
    rendering, if the service does not render; otherwise, whenever the Get
    hands back a service object, with or without an error, that error is
    dropped, the Update is made with the resource version of the object
    read, and updateService gives back the error of the Update. *)
Theorem updateService_drops_Get_error cluster serviceInterface template w :
  (∀ service renderErr,
     serviceForCluster cluster template = (service, Some renderErr) →
     updateService cluster serviceInterface template w = Return (Some renderErr) w) ∧
  (∀ service oldService getErr pg,
     serviceForCluster cluster template = (service, None) →
     Services_Get serviceInterface (metav1.Name (corev1.ObjectMeta service)) (client w)
       = ((Some oldService, getErr), pg) →
     let updated :=
       set_ResourceVersion service (metav1.ResourceVersion (corev1.ObjectMeta oldService)) in
     let u := Services_Update serviceInterface updated pg in
     updateService cluster serviceInterface template w =
       Return u.1.2
         {| client := u.2;
            events := events w ++
              [{| action := GetService serviceInterface
                              (metav1.Name (corev1.ObjectMeta service));
                  failure := getErr |};
               {| action := UpdateService serviceInterface updated; failure := u.1.2 |}] |}).
Proof.
  split.
  - intros service renderErr Hs. unfold updateService. by rewrite Hs.
  - intros service oldService getErr pg Hs Hget updated u.
    unfold updateService, bind, ServicesGet, ServicesUpdate. rewrite Hs, invoke_eq, Hget.
    simpl. rewrite invoke_eq. simpl. fold updated u.
    destruct u as [[o err] p]. simpl. by rewrite <- app_assoc.
Qed.

(** ** AddCluster: the first step, and the shape of every run *)

(** X1.  When the first service cannot be made, AddCluster stops there: if
    its template does not render, no call is made at all and the render
    error is returned; if its Create fails with an error that is not
    AlreadyExists, that Create is the only call and its error is returned
    as it is, not wrapped in an aggregate.  Nothing is deleted. *)
Theorem AddCluster_first_service_failure cluster w :
  let c := WithDefaults cluster in
  (∀ service renderErr,
     serviceForCluster c serviceTemplate = (service, Some renderErr) →
     AddCluster cluster w = Return (c, Some renderErr) w) ∧
  (∀ service o err p1,
     serviceForCluster c serviceTemplate = (service, None) →
     Services_Create (crv1.Namespace c) service (client w) = ((o, Some err), p1) →
     IsAlreadyExists (Some err) = false →
     AddCluster cluster w =
       Return (c, Some err)
         {| client := p1;
            events := events w ++
              [{| action := CreateService (crv1.Namespace c) service;
                  failure := Some err |}] |}).
Proof.
  intros c. split.
  - intros service renderErr Hs. unfold AddCluster, bind. fold c.
    by rewrite createService_eq, Hs.
  - intros service o err p1 Hs Hc Hae. unfold AddCluster, bind. fold c.
    by erewrite createService_create_failed.
Qed.

(** A run of createStatefulSet, with the Get of the backup told apart: there
    is none unless the cluster is to be restored from a backup, and one at
    most. *)
Lemma createStatefulSet_steps cluster w r w1 :
  createStatefulSet cluster w = Return r w1 →
  ∃ gets, Forall (λ ev, is_get_backup (action ev) = true) gets ∧
    (length gets ≤ 1)%nat ∧
    (crv1.FromBackup (crv1.Spec cluster) = "" → gets = []) ∧
    ((events w1 = events w ++ gets ∧ is_Some r) ∨
     (∃ ev, events w1 = events w ++ gets ++ [ev] ∧ is_create (action ev) = true ∧
            (r = None ↔ benign (failure ev)))).
Proof.
  intros Hrun. pose proof Hrun as Hrun'. apply createStatefulSet_run in Hrun'.
  destruct Hrun' as (gets & Hgets & Hcases). exists gets. split; [done|].
  assert ((length gets ≤ 1)%nat ∧ (crv1.FromBackup (crv1.Spec cluster) = "" → gets = []))
    as [Hlen Hnone]; [|done].
  assert (∃ tail, events w1 = events w ++ gets ++ tail ∧ (length tail ≤ 1)%nat ∧
                  Forall (λ ev, is_get_backup (action ev) = false) tail)
    as (tail & Hev & Htail & Hnot).
  { destruct Hcases as [[Hev _]|(ev & Hev & Hc & _)].
    - exists []. rewrite app_nil_r. split_and!; [done|simpl; lia|constructor].
    - exists [ev]. split_and!; [done|simpl; lia|]. repeat constructor.
      destruct ev as [a e]. simpl in *. by destruct a. }
  clear Hcases. revert Hrun. rewrite createStatefulSet_eq. cbv zeta.
  assert (∀ (evs : list Event), events w ++ evs = events w ++ gets ++ tail →
          evs = gets ++ tail) as Hinj.
  { intros evs Heq. by apply app_inv_head in Heq. }
  assert (∀ evs, evs = gets ++ tail → Forall (λ ev, is_get_backup (action ev) = false) evs →
          gets = []) as Hnogets.
  { intros evs -> Hall. apply Forall_app in Hall as [Hall _].
    destruct gets as [|g gets]; [done|].
    apply Forall_cons in Hgets as [Hg _]. apply Forall_cons in Hall as [Hg' _]. congruence. }
  assert (∀ ev evs, ev :: evs = gets ++ tail → is_get_backup (action ev) = true →
          Forall (λ ev, is_get_backup (action ev) = false) evs → (length gets ≤ 1)%nat) as Hone.
  { intros ev evs Heq Hev' Hall. destruct gets as [|g [|g' gets]]; simpl; [lia..|].
    simplify_eq/=. apply Forall_cons in Hgets as [_ Hgets].
    apply Forall_cons in Hgets as [Hg' _]. apply Forall_cons in Hall as [Hg'' _]. congruence. }
  case_bool_decide as Hfrom.
  - intros Hrun. split; [|done]. revert Hrun.
    destruct (MySQLBackupInstances_Get _ _ _) as [[backup [err|]] p]; simpl.
    { intros ?; simplify_eq/=. try apply Hinj in Hev. by eapply (Hone _ []). }
    destruct (statefulSetForCluster cluster backup) as [set [err|]].
    { intros ?; simplify_eq/=. try apply Hinj in Hev. by eapply (Hone _ []). }
    intros ?; simplify_eq/=. rewrite <- ?app_assoc in Hev. try apply Hinj in Hev.
    simpl in Hev. eapply (Hone _ [_]); [done..|]. by repeat constructor.
  - intros Hrun. assert (gets = []) as ->; [|by split; [simpl; lia|]]. revert Hrun.
    destruct (statefulSetForCluster cluster None) as [set [err|]].
    { intros ?; simplify_eq/=. eapply (Hnogets []); [|done].
      apply Hinj. by rewrite app_nil_r. }
    intros ?; simplify_eq/=. eapply (Hnogets [_]); [done|]. by repeat constructor.
Qed.

Lemma createService_log cluster filename w r w1 :
  createService cluster filename w = Return r w1 →
  ∃ evs, events w1 = events w ++ evs ∧
         Forall (λ ev, is_create (action ev) = true) evs ∧ (length evs ≤ 1)%nat.
Proof.
  intros Hrun. apply createService_run in Hrun as [[Hev _]|(ev & Hev & Hc & _)].
  - exists []. rewrite app_nil_r. split_and!; [done|constructor|simpl; lia].
  - exists [ev]. split_and!; [done|by repeat constructor|simpl; lia].
Qed.

Lemma createStatefulSet_log cluster w r w1 :
  createStatefulSet cluster w = Return r w1 →
  ∃ evs, events w1 = events w ++ evs ∧
         Forall (λ ev, is_create (action ev) = true ∨ is_get_backup (action ev) = true) evs ∧
         (length evs ≤ 2)%nat ∧
         (crv1.FromBackup (crv1.Spec cluster) = "" →
          Forall (λ ev, is_create (action ev) = true) evs ∧ (length evs ≤ 1)%nat).
Proof.
  intros Hrun.
  apply createStatefulSet_steps in Hrun as (gets & Hgets & Hlen & Hnone & Hcases).
  assert (Forall (λ ev, is_create (action ev) = true ∨ is_get_backup (action ev) = true) gets)
    as Hgets'.
  { eapply Forall_impl; [done|]. auto. }
  destruct Hcases as [[Hev _]|(ev & Hev & Hc & _)].
  - exists gets. split_and!; [done..|lia|]. intros ->%Hnone. split; [constructor|simpl; lia].
  - exists (gets ++ [ev]). split_and!; [done| |rewrite length_app; simpl; lia|].
    + apply Forall_app. split; [done|]. apply Forall_singleton. by left.
    + intros ->%Hnone. split; [by repeat constructor|simpl; lia].
Qed.

(** X2.  The calls of a run of AddCluster, in order: first the steps, at
    most four calls that are Creates or the Get of the backup (Creates only,
    and three at most, unless the cluster is to be restored from a backup);
    then the rollback, which is nothing, or the Delete of the read-write
    service, or that Delete followed by the Delete of the read service.
    Nothing else is ever called, a stateful set is never deleted, and a
    rollback only happens when an error is returned. *)
Theorem AddCluster_trace cluster w c' r w' :
  AddCluster cluster w = Return (c', r) w' →
  let c := WithDefaults cluster in
  let deleteOf name e :=
    {| action := DeleteService (crv1.Namespace c) name; failure := e |} in
  ∃ steps rollback,
    logged w w' = steps ++ rollback ∧
    Forall (λ ev, is_create (action ev) = true ∨ is_get_backup (action ev) = true) steps ∧
    (length steps ≤ 4)%nat ∧
    (crv1.FromBackup (crv1.Spec c) = "" →
     Forall (λ ev, is_create (action ev) = true) steps ∧ (length steps ≤ 3)%nat) ∧
    (rollback = [] ∨
     (∃ e1, rollback = [deleteOf (ServiceName (crv1.Name c)) e1]) ∨
     (∃ e1 e2, rollback = [deleteOf (ServiceName (crv1.Name c)) e1;
                           deleteOf (ReadServiceName (crv1.Name c)) e2])) ∧
    (rollback ≠ [] → is_Some r).
Proof.
  intros Hadd c deleteOf. pose proof (AddCluster_run_intro cluster w) as Hrun.
  rewrite Hadd in Hrun. fold c in Hrun.
  assert (∀ evs, Forall (λ ev, is_create (action ev) = true) evs →
            Forall (λ ev, is_create (action ev) = true ∨ is_get_backup (action ev) = true) evs)
    as Hweaken.
  { intros evs Hevs. eapply Forall_impl; [done|]. auto. }
  inversion Hrun as [err w1 H1|err removeErr w1 w2 w3 H1 H2 H3
                    |err removeErr removeReadErr w1 w2 w3 w4 w5 H1 H2 H3 H4 H5
                    |w1 w2 w3 H1 H2 H3]; subst.
  - apply createService_log in H1 as (evs1 & Hev1 & Hc1 & Hl1).
    exists evs1, []. rewrite app_nil_r. split; [by apply logged_app|].
    split_and!; [by apply Hweaken|lia|by split; [|lia]|by left|done].
  - apply createService_log in H1 as (evs1 & Hev1 & Hc1 & Hl1).
    apply createService_log in H2 as (evs2 & Hev2 & Hc2 & Hl2).
    apply removeService_run in H3.
    exists (evs1 ++ evs2), [deleteOf (ServiceName (crv1.Name c)) removeErr].
    split; [apply logged_app; by rewrite H3, Hev2, Hev1, <- !app_assoc|].
    assert (Forall (λ ev, is_create (action ev) = true) (evs1 ++ evs2)) as Hc
      by by apply Forall_app.
    rewrite length_app.
    split_and!; [by apply Hweaken|lia|by split; [|lia]|right; left; by eexists|].
    intros _. rewrite NewAggregate_primary. by eexists.
  - apply createService_log in H1 as (evs1 & Hev1 & Hc1 & Hl1).
    apply createService_log in H2 as (evs2 & Hev2 & Hc2 & Hl2).
    apply createStatefulSet_log in H3 as (evs3 & Hev3 & Hc3 & Hl3 & Hnone3).
    apply removeService_run in H4. apply removeReadService_run in H5.
    exists (evs1 ++ evs2 ++ evs3),
      [deleteOf (ServiceName (crv1.Name c)) removeErr;
       deleteOf (ReadServiceName (crv1.Name c)) removeReadErr].
    split; [apply logged_app; by rewrite H5, H4, Hev3, Hev2, Hev1, <- !app_assoc|].
    rewrite !length_app. split_and!; [|lia| |right; right; by eexists _, _|].
    + rewrite !Forall_app. split_and!; auto.
    + intros [Hc3' Hl3']%Hnone3. rewrite !Forall_app. split_and!; [done..|lia].
    + intros _. rewrite !NewAggregate_primary. by eexists.
  - apply createService_log in H1 as (evs1 & Hev1 & Hc1 & Hl1).
    apply createService_log in H2 as (evs2 & Hev2 & Hc2 & Hl2).
    apply createStatefulSet_log in H3 as (evs3 & Hev3 & Hc3 & Hl3 & Hnone3).
    exists (evs1 ++ evs2 ++ evs3), []. rewrite app_nil_r.
    split; [apply logged_app; by rewrite Hev3, Hev2, Hev1, <- !app_assoc|].
    rewrite !length_app. split_and!; [|lia| |by left|done].
    + rewrite !Forall_app. split_and!; auto.
    + intros [Hc3' Hl3']%Hnone3. rewrite !Forall_app. split_and!; [done..|lia].
Qed.

(** X3.  What a nil from AddCluster stands for: the three templates
    rendered for the defaulted cluster, the stateful set with the backup that
    the Get of the backup instance handed back, after the two services were
    created, or with none and without that Get when the cluster is not
    restored from a backup; and the run made exactly three Creates, of the
    read-write service, the read service and the stateful set so rendered,
    in this order, each of which succeeded or found the object in place. *)
Theorem AddCluster_nil cluster w c' w' :
  AddCluster cluster w = Return (c', None) w' →
  let c := WithDefaults cluster in
  let ns := crv1.Namespace c in
  let fromBackup := crv1.FromBackup (crv1.Spec c) in
  ∃ service readService backup statefulSet r1 p1 r2 p2 pg r3,
    c' = c ∧
    serviceForCluster c serviceTemplate = (service, None) ∧
    serviceForCluster c serviceReadTemplate = (readService, None) ∧
    statefulSetForCluster c backup = (statefulSet, None) ∧
    Services_Create ns service (client w) = (r1, p1) ∧
    Services_Create ns readService p1 = (r2, p2) ∧
    (if bool_decide (fromBackup ≠ "")
     then MySQLBackupInstances_Get ns fromBackup p2 = ((backup, None), pg)
     else backup = None ∧ pg = p2) ∧
    StatefulSets_Create ns statefulSet pg = (r3, client w') ∧
    benign r1.2 ∧ benign r2.2 ∧ benign r3.2 ∧
    logged w w' =
      [{| action := CreateService ns service; failure := r1.2 |};
       {| action := CreateService ns readService; failure := r2.2 |}] ++
      (if bool_decide (fromBackup ≠ "")
       then [{| action := GetMySQLBackupInstance ns fromBackup; failure := None |}]
       else []) ++
      [{| action := CreateStatefulSet ns statefulSet; failure := r3.2 |}].
Proof.
  intros Hadd c ns fromBackup. pose proof (AddCluster_run_intro cluster w) as Hrun.
  rewrite Hadd in Hrun. fold c in Hrun.
  inversion Hrun as [| | |w1 w2 w3 H1 H2 H3]; subst;
    try match goal with
        | H : NewAggregate _ = None |- _ => by rewrite !NewAggregate_primary in H
        end.
  apply createService_nil in H1 as (svc & r1 & p1 & Hs1 & Hc1 & Hb1 & ->).
  apply createService_nil in H2 as (rsvc & r2 & p2 & Hs2 & Hc2 & Hb2 & ->).
  apply createStatefulSet_nil in H3
    as (backup & set & r3 & p3 & wg & Hget & Hs3 & Hc3 & Hb3 & ->).
  simpl in Hc2, Hget. fold ns in Hc1, Hc2, Hc3, Hget. fold fromBackup in Hget.
  exists svc, rsvc, backup, set, r1, p1, r2, p2, (client wg), r3.
  split_and!; try done.
  - revert Hget. case_bool_decide as Hfrom; [by intros (pg & ? & ->)|by intros [-> ->]].
  - unfold logged. fold ns fromBackup. revert Hget.
    case_bool_decide as Hfrom.
    + intros (pg & _ & ->). simpl. by rewrite <- !app_assoc, drop_app_length.
    + intros [_ ->]. simpl. by rewrite <- !app_assoc, drop_app_length.
Qed.

(** X4.  The rollback does not ask who made the service.  When the Create of
    the read-write service is answered AlreadyExists, so that the service
    was there before the call, and the Create of the read service then fails,
    AddCluster still deletes the read-write service. *)
Theorem AddCluster_reverts_existing_service
    cluster w service o1 exists_ p1 readService o2 err p2 :
  let c := WithDefaults cluster in
  let ns := crv1.Namespace c in
  let d := Services_Delete ns (ServiceName (crv1.Name c)) p2 in
  serviceForCluster c serviceTemplate = (service, None) →
  Services_Create ns service (client w) = ((o1, Some exists_), p1) →
  IsAlreadyExists (Some exists_) = true →
  serviceForCluster c serviceReadTemplate = (readService, None) →
  Services_Create ns readService p1 = ((o2, Some err), p2) →
  IsAlreadyExists (Some err) = false →
  AddCluster cluster w =
    Return (c, Some (aggregate (err :: option_list d.1)))
      {| client := d.2;
         events := events w ++
           [{| action := CreateService ns service; failure := Some exists_ |};
            {| action := CreateService ns readService; failure := Some err |};
            {| action := DeleteService ns (ServiceName (crv1.Name c)); failure := d.1 |}] |}.
Proof.
  intros c ns d Hs Hc Hexists Hrs Hrc Hae. unfold AddCluster, bind. fold c.
  rewrite (createService_created c _ _ _ _ _ w Hs Hc) by by right.
  erewrite createService_create_failed by done.
  rewrite removeService_eq. cbv zeta. simpl. fold ns d.
  rewrite NewAggregate_primary. by rewrite <- !app_assoc.
Qed.

(** ** UpdateCluster: every run *)

Lemma logs_only_weaken {A} (ok ok' : Event → Prop) (m : M P A) :
  (∀ ev, ok ev → ok' ev) → logs_only ok m → logs_only ok' m.
Proof.
  intros Himpl Hm w. destruct (Hm w) as (evs & Hok & Hev). exists evs.
  split; [|done]. by eapply Forall_impl.
Qed.

(** updateService, call by call. *)
Lemma updateService_eq cluster serviceInterface template w :
  updateService cluster serviceInterface template w =
    match serviceForCluster cluster template with
    | (_, Some err) => Return (Some err) w
    | (service, None) =>
      let name := metav1.Name (corev1.ObjectMeta service) in
      let g := Services_Get serviceInterface name (client w) in
      let wg := {| client := g.2;
                   events := events w ++
                     [{| action := GetService serviceInterface name; failure := g.1.2 |}] |} in
      match g.1.1 with
      | None => Panic wg
      | Some oldService =>
        let updated :=
          set_ResourceVersion service
            (metav1.ResourceVersion (corev1.ObjectMeta oldService)) in
        let u := Services_Update serviceInterface updated g.2 in
        Return u.1.2
          {| client := u.2;
             events := events wg ++
               [{| action := UpdateService serviceInterface updated; failure := u.1.2 |}] |}
      end
    end.
Proof.
  unfold updateService. destruct (serviceForCluster cluster template) as [service [err|]];
    [done|].
  unfold bind, ServicesGet, ServicesUpdate. rewrite invoke_eq. cbv zeta.
  destruct (Services_Get _ _ _) as [[[oldService|] getErr] pg]; simpl; [|done].
  rewrite invoke_eq. by destruct (Services_Update _ _ _) as [[o err] pu].
Qed.

(** A run of updateService that returns made no call and failed (the
    template did not render), or made a Get and then an Update, whose error
    it returns. *)
Lemma updateService_run cluster serviceInterface template w r w1 :
  updateService cluster serviceInterface template w = Return r w1 →
  (events w1 = events w ∧ is_Some r) ∨
  (∃ get update,
     events w1 = events w ++ [get; update] ∧
     is_get_service (action get) = true ∧
     (∃ service, action update = UpdateService serviceInterface service) ∧
     failure update = r).
Proof.
  rewrite updateService_eq.
  destruct (serviceForCluster cluster template) as [service [err|]].
  { intros ?; simplify_eq. left. eauto. }
  cbv zeta. destruct (Services_Get _ _ _) as [[[oldService|] getErr] pg]; simpl;
    [|intros ?; simplify_eq].
  intros ?; simplify_eq. right. eexists _, _. rewrite <- app_assoc.
  split_and!; [done..|by eexists|done].
Qed.

Lemma updateStatefulSet_run cluster w r w1 :
  updateStatefulSet cluster w = Return r w1 →
  (events w1 = events w ∧ is_Some r) ∨
  (∃ statefulSet,
     events w1 = events w ++
       [{| action := UpdateStatefulSet (crv1.Namespace cluster) statefulSet;
           failure := r |}]).
Proof.
  unfold updateStatefulSet.
  destruct (statefulSetForCluster cluster None) as [statefulSet [err|]].
  { unfold ret. intros ?; simplify_eq. left. eauto. }
  unfold bind, StatefulSetsUpdate, ret. rewrite invoke_eq.
  destruct (StatefulSets_Update _ _ _) as [[o err] p]. simpl.
  intros ?; simplify_eq. right. by eexists.
Qed.

(** A run of updateServices that returns: the calls are Gets and Updates of
    services, four at most; when it gives nil they are four, and both
    Updates came back nil. *)
Lemma updateServices_run cluster w r w1 :
  updateServices cluster w = Return r w1 →
  ∃ evs,
    events w1 = events w ++ evs ∧
    Forall (λ ev, is_get_service (action ev) = true ∨
                  ∃ ns service, action ev = UpdateService ns service) evs ∧
    (r = None →
     length evs = 4 ∧ Forall (λ ev, is_get_service (action ev) = false → failure ev = None) evs).
Proof.
  unfold updateServices, bind, ret.
  destruct (updateService cluster _ serviceTemplate w) as [r1 wa|wa] eqn:H1; [|done].
  apply updateService_run in H1.
  assert (∀ g u ns, is_get_service (action g) = true →
            (∃ service, action u = UpdateService ns service) →
            Forall (λ ev, is_get_service (action ev) = true ∨
                          ∃ ns service, action ev = UpdateService ns service) [g; u])
    as Hpair.
  { intros g u ns Hg [service Hu]. apply Forall_cons. split; [by left|].
    apply Forall_singleton. right. by eexists _, _. }
  assert (∀ g u : Event, is_get_service (action g) = true →
            (∃ service, action u = UpdateService (crv1.Namespace cluster) service) →
            failure u = None →
            Forall (λ ev, is_get_service (action ev) = false → failure ev = None) [g; u])
    as Hnil.
  { intros g u Hg _ Hu. apply Forall_cons. split; [congruence|]. by apply Forall_singleton. }
  destruct r1 as [err|].
  - intros ?; simplify_eq. destruct H1 as [[Hev _]|(g & u & Hev & Hg & Hu & _)].
    + exists []. rewrite app_nil_r. split_and!; [done|constructor|by intros [=]].
    + exists [g; u]. split_and!; [done|by eapply Hpair|by intros [=]].
  - destruct H1 as [[_ []%is_Some_None]|(g1 & u1 & Hev1 & Hg1 & Hu1 & Hf1)].
    intros H2. apply updateService_run in H2 as [[Hev2 Hr]|(g2 & u2 & Hev2 & Hg2 & Hu2 & Hf2)].
    + exists [g1; u1]. rewrite Hev2. split_and!; [done|by eapply Hpair|].
      intros ->. by apply is_Some_None in Hr.
    + exists ([g1; u1] ++ [g2; u2]). rewrite Hev2, Hev1, <- app_assoc.
      split_and!; [done| |].
      * apply Forall_app. split; by eapply Hpair.
      * intros ->. split; [done|]. apply Forall_app. split; by apply Hnil.
Qed.

(** X5.  When the services were updated and updateStatefulSet fails,
    UpdateCluster sets the status of the cluster object to state "Failed
    update" with the message of the StatefulSet update failure, sends it to
    the platform, and returns the aggregate of the update error followed,
    when the status write failed, by its error.  After the services were
    updated no call on a service is made: they stay as updated. *)
Theorem UpdateCluster_statefulSet_failure newCluster err w w1 w2 :
  let c := WithDefaults newCluster in
  let failed :=
    set_Status c "Failed update"
      "The provided patch resulted in a StatefulSet update failure" in
  let ns := metav1.Namespace (crv1.ObjectMeta failed) in
  let u := MySQLClusters_Update ns failed (client w2) in
  updateServices c w = Return None w1 →
  updateStatefulSet c w1 = Return (Some err) w2 →
  ∃ w3,
    UpdateCluster newCluster w =
      Return (failed, Some (aggregate (err :: option_list u.1.2))) w3 ∧
    client w3 = u.2 ∧
    events w3 = events w2 ++ [{| action := UpdateMySQLCluster ns failed; failure := u.1.2 |}] ∧
    Forall (λ ev, is_statefulSet_update (action ev) = true ∨
                  is_status_write (action ev) = true) (logged w1 w3).
Proof.
  intros c failed ns u Hservices Hset. eexists. split.
  { unfold UpdateCluster, bind. fold c. rewrite Hservices, Hset, setClusterState_eq.
    cbv zeta. fold failed ns u. by rewrite NewAggregate_primary. }
  split_and!; [done..|]. unfold logged. cbn [events].
  apply updateStatefulSet_run in Hset as [[-> _]|(set & ->)].
  - rewrite drop_app_length. apply Forall_singleton. by right.
  - rewrite <- app_assoc, drop_app_length. apply Forall_cons. split; [by left|].
    apply Forall_singleton. by right.
Qed.

(** X6.  Every run of UpdateCluster that returns ends with the one status
    write it makes: the last call is the Update of the cluster resource,
    carrying the very object UpdateCluster leaves, and no call before it is a
    status write.  That object is the defaulted cluster with only its status
    changed; its state is "Failed update" when an error is returned for a
    failed update, and otherwise the status is "Successful update" with an
    empty message and the result is the error of the status write. *)
Theorem UpdateCluster_status_written_once cluster w c' r w' :
  UpdateCluster cluster w = Return (c', r) w' →
  ∃ evs writeErr,
    logged w w' =
      evs ++ [{| action := UpdateMySQLCluster (crv1.Namespace c') c'; failure := writeErr |}] ∧
    Forall (λ ev, is_status_write (action ev) = false) evs ∧
    crv1.ObjectMeta c' = crv1.ObjectMeta (WithDefaults cluster) ∧
    crv1.Spec c' = crv1.Spec (WithDefaults cluster) ∧
    ((crv1.State (crv1.Status c') = "Failed update" ∧ is_Some r) ∨
     (crv1.Status c' = {| crv1.State := "Successful update"; crv1.Message := "" |} ∧
      r = writeErr)).
Proof.
  assert (∀ evs, Forall (λ ev, is_get_service (action ev) = true ∨
                               ∃ ns service, action ev = UpdateService ns service) evs →
                 Forall (λ ev, is_status_write (action ev) = false) evs) as Hservices.
  { intros evs Hevs. eapply Forall_impl; [done|]. intros [a e]; simpl.
    intros [Hg|(ns & service & ->)]; [by destruct a|done]. }
  unfold UpdateCluster, bind, ret.
  destruct (updateServices _ w) as [[err|] w1|w1] eqn:H1; [| |done].
  - rewrite setClusterState_eq. cbv zeta. rewrite NewAggregate_primary.
    intros ?; simplify_eq. apply updateServices_run in H1 as (evs1 & Hev1 & Hc1 & _).
    eexists evs1, _. unfold logged. cbn [events]. rewrite Hev1, <- app_assoc, drop_app_length.
    split_and!; [done|by apply Hservices|done..|]. left. split; [done|by eexists].
  - apply updateServices_run in H1 as (evs1 & Hev1 & Hc1 & _).
    destruct (updateStatefulSet _ w1) as [[err|] w2|w2] eqn:H2; [| |done].
    + rewrite setClusterState_eq. cbv zeta. rewrite NewAggregate_primary.
      intros ?; simplify_eq.
      assert (∃ evs2, events w2 = events w1 ++ evs2 ∧
                      Forall (λ ev, is_status_write (action ev) = false) evs2)
        as (evs2 & Hev2 & Hc2).
      { apply updateStatefulSet_run in H2 as [[-> _]|(set & ->)].
        - exists []. by rewrite app_nil_r.
        - eexists (_ :: nil). split; [done|]. by repeat constructor. }
      eexists (evs1 ++ evs2), _. unfold logged. cbn [events].
      rewrite Hev2, Hev1, <- !app_assoc, drop_app_length.
      split_and!; [done| |done..|].
      * apply Forall_app. split; [by apply Hservices|done].
      * left. split; [done|by eexists].
    + rewrite setClusterState_eq. cbv zeta. intros ?; simplify_eq.
      apply updateStatefulSet_run in H2 as [[_ []%is_Some_None]|(set & Hev2)].
      eexists (evs1 ++ [_]), _. unfold logged. cbn [events].
      rewrite Hev2, Hev1, <- !app_assoc, drop_app_length.
      split_and!; [done| |done..|by right].
      apply Forall_app. split; [by apply Hservices|]. by repeat constructor.
Qed.

Lemma updateService_calls cluster serviceInterface template :
  logs_only (λ ev, is_update_call (action ev) = true)
    (updateService cluster serviceInterface template).
Proof.
  unfold updateService. destruct (serviceForCluster cluster template) as [service [err|]];
    [apply logs_only_ret|].
  apply logs_only_bind; [by apply logs_only_invoke|]. intros [[oldService|] err];
    [|apply logs_only_panic].
  apply logs_only_bind; [by apply logs_only_invoke|]. intros [o err']. apply logs_only_ret.
Qed.

Lemma setClusterState_calls cluster state message :
  logs_only (λ ev, is_update_call (action ev) = true)
    (setClusterState cluster state message).
Proof.
  unfold setClusterState. apply logs_only_bind; [by apply logs_only_invoke|].
  intros [o err]. apply logs_only_ret.
Qed.

(** X7.  UpdateCluster only reads and updates: whether it returns or panics,
    every call it made is a Get or an Update of a service, an Update of the
    stateful set or an Update of the cluster resource.  It never creates or
    deletes an object, so an update that fails half way is not rolled back,
    and it never fetches the backup. *)
Theorem UpdateCluster_only_updates cluster :
  logs_only (λ ev, is_update_call (action ev) = true) (UpdateCluster cluster).
Proof.
  unfold UpdateCluster. apply logs_only_bind.
  { unfold updateServices. apply logs_only_bind; [apply updateService_calls|].
    intros [err|]; [apply logs_only_ret|apply updateService_calls]. }
  intros [err|].
  { apply logs_only_bind; [apply setClusterState_calls|]. intros [c e]. apply logs_only_ret. }
  apply logs_only_bind; [|intros [err|]].
  - unfold updateStatefulSet.
    destruct (statefulSetForCluster _ None) as [statefulSet [err|]]; [apply logs_only_ret|].
    apply logs_only_bind; [by apply logs_only_invoke|]. intros [o err]. apply logs_only_ret.
  - apply logs_only_bind; [apply setClusterState_calls|]. intros [c e]. apply logs_only_ret.
  - apply setClusterState_calls.
Qed.

(** X8.  What a nil from UpdateCluster stands for: the three templates
    rendered for the defaulted cluster and exactly six calls were made, in
    this order: the Get of the read-write service, the Update of the
    rendered read-write service with the resource version of the object that
    Get handed back, the same two calls for the read service, the Update of
    the rendered stateful set and the Update of the cluster resource with
    the status "Successful update" and an empty message; every Update came
    back nil.  The errors of the two Gets are not part of it: they may be
    anything. *)
Theorem UpdateCluster_nil cluster w c' w' :
  UpdateCluster cluster w = Return (c', None) w' →
  let c := WithDefaults cluster in
  let ns := crv1.Namespace c in
  ∃ service readService statefulSet old getErr p1 o1 p2 oldRead getReadErr p3 o2 p4 o3 p5 o4,
    let updated :=
      set_ResourceVersion service (metav1.ResourceVersion (corev1.ObjectMeta old)) in
    let updatedRead :=
      set_ResourceVersion readService (metav1.ResourceVersion (corev1.ObjectMeta oldRead)) in
    c' = set_Status c "Successful update" "" ∧
    serviceForCluster c serviceTemplate = (service, None) ∧
    serviceForCluster c serviceReadTemplate = (readService, None) ∧
    statefulSetForCluster c None = (statefulSet, None) ∧
    Services_Get ns (metav1.Name (corev1.ObjectMeta service)) (client w) =
      ((Some old, getErr), p1) ∧
    Services_Update ns updated p1 = ((o1, None), p2) ∧
    Services_Get ns (metav1.Name (corev1.ObjectMeta readService)) p2 =
      ((Some oldRead, getReadErr), p3) ∧
    Services_Update ns updatedRead p3 = ((o2, None), p4) ∧
    StatefulSets_Update ns statefulSet p4 = ((o3, None), p5) ∧
    MySQLClusters_Update ns c' p5 = ((o4, None), client w') ∧
    logged w w' =
      [{| action := GetService ns (metav1.Name (corev1.ObjectMeta service));
          failure := getErr |};
       {| action := UpdateService ns updated; failure := None |};
       {| action := GetService ns (metav1.Name (corev1.ObjectMeta readService));
          failure := getReadErr |};
       {| action := UpdateService ns updatedRead; failure := None |};
       {| action := UpdateStatefulSet ns statefulSet; failure := None |};
       {| action := UpdateMySQLCluster ns c'; failure := None |}].
Proof.
  intros Hrun c ns. revert Hrun. unfold UpdateCluster, bind, ret. fold c.
  destruct (updateServices c w) as [[err|] w1|w1] eqn:H1; [| |done].
  { rewrite setClusterState_eq. cbv zeta. rewrite NewAggregate_primary.
    intros ?; simplify_eq. }
  destruct (updateStatefulSet c w1) as [[err|] w2|w2] eqn:H2; [| |done].
  { rewrite setClusterState_eq. cbv zeta. rewrite NewAggregate_primary.
    intros ?; simplify_eq. }
  rewrite setClusterState_eq. cbv zeta.
  change (metav1.Namespace (crv1.ObjectMeta (set_Status c "Successful update" ""))) with ns.
  destruct (MySQLClusters_Update ns _ (client w2)) as [[o4 e4] p6] eqn:H3. simpl.
  intros Hrun. injection Hrun as <- -> <-.
  (* the two services *)
  unfold updateServices, bind, ret in H1. fold ns in H1.
  destruct (updateService c ns serviceTemplate w) as [[err|] wa|wa] eqn:Ha; [done| |done].
  rewrite updateService_eq in Ha, H1.
  destruct (serviceForCluster c serviceTemplate) as [service [e|]] eqn:Hs; [done|].
  destruct (serviceForCluster c serviceReadTemplate) as [readService [e|]] eqn:Hrs; [done|].
  cbv zeta in Ha, H1.
  destruct (Services_Get ns _ (client w)) as [[[old|] getErr] p1] eqn:Hg1; simpl in Ha; [|done].
  destruct (Services_Update ns _ p1) as [[o1 e1] p2] eqn:Hu1. simpl in Ha.
  injection Ha as -> <-. simpl in H1.
  destruct (Services_Get ns _ p2) as [[[oldRead|] getReadErr] p3] eqn:Hg2; simpl in H1; [|done].
  destruct (Services_Update ns _ p3) as [[o2 e2] p4] eqn:Hu2. simpl in H1.
  injection H1 as -> <-.
  (* the stateful set *)
  unfold updateStatefulSet in H2. fold ns in H2.
  destruct (statefulSetForCluster c None) as [statefulSet [e|]] eqn:Hset;
    [unfold ret in H2; simplify_eq|].
  unfold bind, StatefulSetsUpdate, ret in H2. rewrite invoke_eq in H2. simpl in H2.
  destruct (StatefulSets_Update ns _ p4) as [[o3 e3] p5] eqn:Hu3. simpl in H2.
  injection H2 as -> <-. simpl in H3.
  exists service, readService, statefulSet, old, getErr, p1, o1, p2,
         oldRead, getReadErr, p3, o2, p4, o3, p5, o4.
  cbv zeta. split_and!; try done.
  unfold logged. simpl. by rewrite <- !app_assoc, drop_app_length.
Qed.

(** X9.  A Get that hands back no object stops UpdateCluster with a nil
    pointer dereference: nothing is returned and the status of the cluster
    is never written.  With the Get of the read-write service the Get is the
    only call made; with the Get of the read service, the read-write
    service has been updated by then and stays so. *)
Theorem UpdateCluster_nil_object_panics newCluster w :
  let c := WithDefaults newCluster in
  let ns := crv1.Namespace c in
  (∀ service getErr pg,
     serviceForCluster c serviceTemplate = (service, None) →
     Services_Get ns (metav1.Name (corev1.ObjectMeta service)) (client w)
       = ((None, getErr), pg) →
     UpdateCluster newCluster w =
       Panic {| client := pg;
                events := events w ++
                  [{| action := GetService ns (metav1.Name (corev1.ObjectMeta service));
                      failure := getErr |}] |}) ∧
  (∀ w1 readService getErr pg,
     updateService c ns serviceTemplate w = Return None w1 →
     serviceForCluster c serviceReadTemplate = (readService, None) →
     Services_Get ns (metav1.Name (corev1.ObjectMeta readService)) (client w1)
       = ((None, getErr), pg) →
     UpdateCluster newCluster w =
       Panic {| client := pg;
                events := events w1 ++
                  [{| action := GetService ns (metav1.Name (corev1.ObjectMeta readService));
                      failure := getErr |}] |}).
Proof.
  intros c ns. split.
  - intros service getErr pg Hs Hget. unfold UpdateCluster, updateServices, bind. fold c ns.
    by rewrite updateService_eq, Hs; cbv zeta; rewrite Hget.
  - intros w1 readService getErr pg H1 Hs Hget.
    unfold UpdateCluster, updateServices, bind. fold c ns. rewrite H1.
    by rewrite updateService_eq, Hs; cbv zeta; rewrite Hget.
Qed.

(** X10.  When the Update of the read-write service fails, the read service
    is neither read nor updated: the run is the Get and the failed Update of
    the read-write service, then the status write, and the result is the
    aggregate of the Update error with the error of the status write, if
    any. *)
Theorem UpdateCluster_first_update_failure
    newCluster w service oldService getErr pg o err pu :
  let c := WithDefaults newCluster in
  let ns := crv1.Namespace c in
  let updated :=
    set_ResourceVersion service (metav1.ResourceVersion (corev1.ObjectMeta oldService)) in
  let failed :=
    set_Status c "Failed update" "The provided patch resulted in a Service update failure" in
  let st := MySQLClusters_Update ns failed pu in
  serviceForCluster c serviceTemplate = (service, None) →
  Services_Get ns (metav1.Name (corev1.ObjectMeta service)) (client w)
    = ((Some oldService, getErr), pg) →
  Services_Update ns updated pg = ((o, Some err), pu) →
  UpdateCluster newCluster w =
    Return (failed, Some (aggregate (err :: option_list st.1.2)))
      {| client := st.2;
         events := events w ++
           [{| action := GetService ns (metav1.Name (corev1.ObjectMeta service));
               failure := getErr |};
            {| action := UpdateService ns updated; failure := Some err |};
            {| action := UpdateMySQLCluster ns failed; failure := st.1.2 |}] |}.
Proof.
  intros c ns updated failed st Hs Hget Hupdate.
  unfold UpdateCluster, updateServices, bind. fold c ns.
  rewrite updateService_eq, Hs. cbv zeta. rewrite Hget. cbn [fst snd]. fold updated.
  rewrite Hupdate. cbn [fst snd]. unfold ret. rewrite setClusterState_eq. cbv zeta.
  cbn [client events]. fold failed. rewrite NewAggregate_primary.
  by rewrite <- !app_assoc.
Qed.

End OperatorFacts.

(** ** The dispatcher *)

Lemma serially_app ns1 ns2 : serially (ns1 ++ ns2) = serially ns1 ++ serially ns2.
Proof. unfold serially. apply bind_app. Qed.

Lemma arrivals_snoc x schedule s :
  arrivals x (schedule ++ [s]) = arrivals x schedule ++ arrivals x [s].
Proof. unfold arrivals. apply omap_app. Qed.

Lemma marks_snoc x t m :
  marks x (t ++ [m]) =
    marks x t ++ (if decide (identity (mark_resource m) = x) then [m] else []).
Proof.
  unfold marks. by rewrite filter_app.
Qed.

Lemma dispatch_snoc schedule s : dispatch (schedule ++ [s]) = step (dispatch schedule) s.
Proof. unfold dispatch. by rewrite foldl_app. Qed.

Lemma dispatcher_inv_init : dispatcher_inv [] NewDispatcher.
Proof. intros x. unfold queue, ending. simpl. rewrite !lookup_empty. by split_and!. Qed.

Lemma dispatcher_inv_step schedule d s :
  dispatcher_inv schedule d → dispatcher_inv (schedule ++ [s]) (step d s).
Proof.
  intros Hinv x. destruct (Hinv x) as (Hqueue & Hrunning & Heq).
  rewrite arrivals_snoc, serially_app, Heq. destruct s as [n|y|y]; simpl.
  - (* a notification arrives *)
    unfold queue, ending in *. simpl. case_bool_decide as Hx.
    + rewrite Hx, lookup_insert_eq. simpl. split_and!; [|done|].
      * apply Forall_app. split; [done|]. by repeat constructor.
      * rewrite serially_app. simpl. by rewrite <- !app_assoc.
    + rewrite lookup_insert_ne by done. split_and!; [done..|]. by rewrite app_nil_r.
  - (* a worker starts on its oldest pending notification *)
    rewrite app_nil_r.
    destruct (running d !! y) as [m|] eqn:Hrun; [done|].
    destruct (pending d !! y) as [[|n ns]|] eqn:Hpend; [done| |done].
    destruct (Hinv y) as (Hqueue_y & _ & _). unfold queue in Hqueue_y.
    rewrite Hpend in Hqueue_y. simpl in Hqueue_y. apply Forall_cons in Hqueue_y as [Hn Hns].
    unfold queue, ending in *. simpl. rewrite marks_snoc. simpl.
    destruct (decide (y = x)) as [->|Hne].
    + rewrite !lookup_insert_eq, Hrun, Hpend. simpl.
      case_decide; [|done]. split_and!; [done|by intros ? [= <-]|].
      by rewrite <- !app_assoc.
    + rewrite !lookup_insert_ne by done. case_decide; [congruence|].
      by rewrite app_nil_r.
  - (* a worker finishes *)
    rewrite app_nil_r.
    destruct (running d !! y) as [m|] eqn:Hrun; [|done].
    destruct (Hinv y) as (_ & Hrunning_y & _). specialize (Hrunning_y m Hrun).
    unfold queue, ending in *. simpl. rewrite marks_snoc. simpl.
    destruct (decide (y = x)) as [->|Hne].
    + rewrite lookup_delete_eq, Hrun. case_decide; [|done].
      split_and!; [done..|]. by rewrite <- !app_assoc.
    + rewrite lookup_delete_ne by done. case_decide; [congruence|].
      by rewrite app_nil_r.
Qed.

Lemma dispatcher_inv_dispatch schedule : dispatcher_inv schedule (dispatch schedule).
Proof.
  induction schedule as [|s schedule IH] using rev_ind; [apply dispatcher_inv_init|].
  rewrite dispatch_snoc. by apply dispatcher_inv_step.
Qed.

(** A step that brings no notification for an identity leaves its worker
    the turns it had, or takes the first of them. *)
Lemma turns_step_sublist d s x :
  arrivals x [s] = [] → turns (step d s) x `sublist_of` turns d x.
Proof.
  intros Harr. destruct s as [n|y|y]; simpl.
  - (* a notification for another identity *)
    unfold arrivals in Harr. simpl in Harr. case_bool_decide as Hx; [done|].
    unfold turns, queue. simpl. by rewrite lookup_insert_ne.
  - destruct (running d !! y) as [m|] eqn:Hrun; [done|].
    destruct (pending d !! y) as [[|n ns]|] eqn:Hpend; [done| |done].
    unfold turns, queue. simpl. destruct (decide (y = x)) as [->|Hne].
    + rewrite !lookup_insert_eq, Hrun, Hpend. simpl. by apply sublist_cons.
    + by rewrite !lookup_insert_ne.
  - destruct (running d !! y) as [m|] eqn:Hrun; [|done].
    unfold turns, queue. simpl. destruct (decide (y = x)) as [->|Hne].
    + rewrite lookup_delete_eq, Hrun. simpl. by apply sublist_cons.
    + by rewrite lookup_delete_ne.
Qed.

(** The first turn of a worker, taken, leaves it the others. *)
Lemma turns_step_head d s x l :
  turns d x = s :: l → turns (step d s) x = l.
Proof.
  unfold turns, queue. destruct (running d !! x) as [m|] eqn:Hrun; simpl.
  - intros [= <- <-]. simpl. rewrite Hrun. simpl. by rewrite lookup_delete_eq.
  - destruct (pending d !! x) as [[|n ns]|] eqn:Hpend; simpl; [done| |done].
    intros [= <- <-]. simpl. rewrite Hrun, Hpend. simpl. by rewrite !lookup_insert_eq.
Qed.

(** However the turns of a worker are interleaved with other steps, once it
    has had them and nothing more has arrived for it, it is idle and holds
    nothing. *)
Lemma dispatch_settles rest : ∀ schedule x,
  arrivals x rest = [] →
  turns (dispatch schedule) x `sublist_of` rest →
  queue (dispatch (schedule ++ rest)) x = [] ∧ running (dispatch (schedule ++ rest)) !! x = None.
Proof.
  induction rest as [|s rest IH]; intros schedule x Harr Hsub.
  - rewrite app_nil_r. apply sublist_nil_r in Hsub. unfold turns in Hsub.
    apply app_eq_nil in Hsub as [Hrun Hqueue].
    split; [by destruct (queue _ x)|by destruct (running _ !! x)].
  - assert (arrivals x [s] = [] ∧ arrivals x rest = []) as [Hs Hrest].
    { change (s :: rest) with ([s] ++ rest) in Harr. unfold arrivals in *.
      rewrite omap_app in Harr. by apply app_eq_nil in Harr. }
    replace (schedule ++ s :: rest) with ((schedule ++ [s]) ++ rest)
      by (by rewrite <- app_assoc).
    apply IH; [done|].
    rewrite dispatch_snoc.
    apply sublist_cons_r in Hsub as [Hsub|(l & Hturns & Hsub)].
    + etrans; [by apply turns_step_sublist|done].
    + by rewrite (turns_step_head _ _ _ _ Hturns).
Qed.

(** C9.  Whatever the interleaving of arrivals and of the workers' steps: for
    every identity, the invocations the reconciler has seen begin and end
    for it, followed by the end of the one under way and by the pending
    notifications run one after the other, are exactly the notifications
    that arrived for it, each invoked once, in arrival order, Added as
    AddCluster and Modified as UpdateCluster, each ended before the next
    begins.  So when Added and then Modified arrived for an identity, what
    the reconciler has seen for it at any time is a beginning of: AddCluster
    begins, AddCluster ends, UpdateCluster begins, UpdateCluster ends.  And
    every notification is invoked: however the run goes on, once the worker
    of the identity has had the turns it needs for what it holds, among any
    other steps, and nothing more has arrived for it, the reconciler has
    seen one invocation, begun and ended, for each notification that
    arrived, in arrival order, and the worker is idle with nothing pending. *)
Theorem dispatch_in_arrival_order (schedule : list Step) (x : Identity) :
  let d := dispatch schedule in
  serially (arrivals x schedule) = marks x (trace d) ++ ending d x ++ serially (queue d x) ∧
  (∀ added modified,
    arrivals x schedule =
      [{| kind := Added; resource := added |}; {| kind := Modified; resource := modified |}] →
    marks x (trace d) `prefix_of`
      [Begin OpAddCluster added; End OpAddCluster added;
       Begin OpUpdateCluster modified; End OpUpdateCluster modified]) ∧
  (∀ rest,
    arrivals x rest = [] →
    turns d x `sublist_of` rest →
    let d' := dispatch (schedule ++ rest) in
    marks x (trace d') = serially (arrivals x schedule) ∧
    queue d' x = [] ∧ running d' !! x = None).
Proof.
  intros d. destruct (dispatcher_inv_dispatch schedule x) as (_ & _ & Heq).
  split; [done|]. split.
  - intros added modified Harr. rewrite Harr in Heq. simpl in Heq.
    rewrite Heq. by eexists.
  - intros rest Harr Hturns d'.
    destruct (dispatch_settles rest schedule x Harr Hturns) as [Hqueue Hrun].
    destruct (dispatcher_inv_dispatch (schedule ++ rest) x) as (_ & _ & Heq').
    fold d' in Heq', Hqueue, Hrun. unfold ending in Heq'.
    rewrite Hqueue, Hrun in Heq'. simpl in Heq'. rewrite !app_nil_r in Heq'.
    unfold arrivals in Heq' at 1. rewrite omap_app in Heq'.
    fold (arrivals x schedule) (arrivals x rest) in Heq'.
    rewrite Harr, app_nil_r in Heq'. by rewrite Heq'.
Qed.

(** * The operator on the in-memory platform *)

Section FakeFacts.
Context `{!Externals}.

Implicit Types (f : Fake) (w : World Fake) (cluster : crv1.MySQLCluster).

(** On a clientset without reactors, createService gives nil only with the
    service in the tracker afterwards; nothing else changes. *)
Lemma Fake_createService_nil cluster filename w w1 :
  ReactionChain (client w) = [] →
  createService cluster filename w = Return None w1 →
  ∃ service,
    serviceForCluster cluster filename = (service, None) ∧
    is_Some (services (client w1)
               !! (crv1.Namespace cluster, metav1.Name (corev1.ObjectMeta service))) ∧
    ReactionChain (client w1) = [] ∧
    (∀ k, is_Some (services (client w) !! k) → is_Some (services (client w1) !! k)) ∧
    statefulSets (client w1) = statefulSets (client w) ∧
    backupInstances (client w1) = backupInstances (client w).
Proof.
  intros Hchain Hrun.
  apply createService_nil in Hrun as (service & r & p & Hs & Hc & _ & ->).
  exists service. split; [done|]. simpl in *. unfold fake_call, tracker_create in Hc.
  rewrite Hchain in Hc. simpl in Hc.
  destruct (services (client w) !! _) as [old|] eqn:Hold; simplify_eq/=.
  - by rewrite Hold.
  - rewrite lookup_insert_eq. split_and!; [by eauto|done| |done..].
    intros k Hk. rewrite lookup_insert. by case_decide.
Qed.

(** The same for createStatefulSet, which also needs the backup it reads. *)
Lemma Fake_createStatefulSet_nil cluster w w1 :
  ReactionChain (client w) = [] →
  createStatefulSet cluster w = Return None w1 →
  ∃ backup statefulSet,
    (if bool_decide (crv1.FromBackup (crv1.Spec cluster) ≠ "")
     then is_Some backup ∧
          backupInstances (client w)
            !! (crv1.Namespace cluster, crv1.FromBackup (crv1.Spec cluster)) = backup
     else backup = None) ∧
    statefulSetForCluster cluster backup = (statefulSet, None) ∧
    is_Some (statefulSets (client w1)
               !! (crv1.Namespace cluster, metav1.Name (appsv1.ObjectMeta statefulSet))) ∧
    ReactionChain (client w1) = [] ∧
    services (client w1) = services (client w) ∧
    backupInstances (client w1) = backupInstances (client w).
Proof.
  intros Hchain Hrun.
  apply createStatefulSet_nil in Hrun as (backup & set & r & p & wg & Hb & Hs & Hc & _ & ->).
  exists backup, set. simpl.
  assert (client wg = client w ∧
          if bool_decide (crv1.FromBackup (crv1.Spec cluster) ≠ "")
          then is_Some backup ∧
               backupInstances (client w)
                 !! (crv1.Namespace cluster, crv1.FromBackup (crv1.Spec cluster)) = backup
          else backup = None) as [Hwg Hbackup].
  { case_bool_decide; [|by destruct Hb as [-> ->]].
    destruct Hb as (pg & Hget & ->). simpl in *. unfold fake_call, tracker_get in Hget.
    rewrite Hchain in Hget. simpl in Hget.
    destruct (backupInstances (client w) !! _) as [b|]; by simplify_eq/=. }
  split; [done|]. split; [done|].
  simpl in Hc. unfold fake_call, tracker_create in Hc. rewrite Hwg, Hchain in Hc.
  simpl in Hc.
  destruct (statefulSets (client w) !! _) as [old|] eqn:Hold; simplify_eq/=.
  - by rewrite Hold.
  - by rewrite lookup_insert_eq.
Qed.

(** With the object in the tracker, a Create is answered AlreadyExists and
    the step gives nil, leaving the platform as it is. *)
Lemma Fake_createService_exists cluster filename service w :
  ReactionChain (client w) = [] →
  serviceForCluster cluster filename = (service, None) →
  is_Some (services (client w)
             !! (crv1.Namespace cluster, metav1.Name (corev1.ObjectMeta service))) →
  createService cluster filename w =
    Return None
      {| client := client w;
         events := events w ++
           [{| action := CreateService (crv1.Namespace cluster) service;
               failure := Some (NewAlreadyExists (metav1.Name (corev1.ObjectMeta service)))
            |}] |}.
Proof.
  intros Hchain Hs [old Hold]. eapply createService_created; [done| |by right].
  simpl. unfold fake_call, tracker_create. rewrite Hchain, Hold. simpl.
  by destruct (client w).
Qed.

Lemma Fake_createStatefulSet_exists cluster backup statefulSet w :
  ReactionChain (client w) = [] →
  (if bool_decide (crv1.FromBackup (crv1.Spec cluster) ≠ "")
   then is_Some backup ∧
        backupInstances (client w)
          !! (crv1.Namespace cluster, crv1.FromBackup (crv1.Spec cluster)) = backup
   else backup = None) →
  statefulSetForCluster cluster backup = (statefulSet, None) →
  is_Some (statefulSets (client w)
             !! (crv1.Namespace cluster, metav1.Name (appsv1.ObjectMeta statefulSet))) →
  ∃ w1,
    createStatefulSet cluster w = Return None w1 ∧
    client w1 = client w ∧
    ∃ gets,
      Forall (λ ev, is_get_backup (action ev) = true) gets ∧
      events w1 = events w ++ gets ++
        [{| action := CreateStatefulSet (crv1.Namespace cluster) statefulSet;
            failure := Some (NewAlreadyExists
                               (metav1.Name (appsv1.ObjectMeta statefulSet))) |}].
Proof.
  intros Hchain Hb Hs [old Hold].
  assert (∀ wg, client wg = client w →
    StatefulSets_Create (crv1.Namespace cluster) statefulSet (client wg) =
      ((None, Some (NewAlreadyExists (metav1.Name (appsv1.ObjectMeta statefulSet)))),
       client w)) as Hcreate.
  { intros wg ->. simpl. unfold fake_call, tracker_create. rewrite Hchain, Hold. simpl.
    by destruct (client w). }
  case_bool_decide as Hfrom.
  - destruct Hb as [[b ->] Hget]. eexists. split.
    + eapply (createStatefulSet_created _ (Some b) statefulSet None
                (Some (NewAlreadyExists (metav1.Name (appsv1.ObjectMeta statefulSet))))
                (client w) w {| client := client w |}); [|done| |by right].
      * rewrite bool_decide_eq_true_2 by done. eexists. split; [|done].
        simpl. unfold fake_call, tracker_get. by rewrite Hchain, Hget.
      * by apply Hcreate.
    + split; [done|]. eexists (_ :: nil). split; [|simpl; by rewrite <- app_assoc].
      by repeat constructor.
  - subst backup. eexists. split.
    + eapply (createStatefulSet_created _ None statefulSet None
                (Some (NewAlreadyExists (metav1.Name (appsv1.ObjectMeta statefulSet))))
                (client w) w w); [|done| |by right].
      * rewrite bool_decide_eq_false_2; [by split|]. by intros [].
      * by apply Hcreate.
    + split; [done|]. by exists [].
Qed.

(** AddCluster again.  On a clientset without reactors, after an AddCluster
    that returned nil, AddCluster for the same defaulted cluster returns nil
    again; its three Creates are answered AlreadyExists and the platform is
    left as the first call left it. *)
Lemma Fake_AddCluster_again cluster cluster2 w w1 c' :
  ReactionChain (client w) = [] →
  AddCluster cluster w = Return (c', None) w1 →
  WithDefaults cluster2 = WithDefaults cluster →
  ∃ w2,
    AddCluster cluster2 w1 = Return (c', None) w2 ∧
    client w2 = client w1 ∧
    length (creates (logged w1 w2)) = 3 ∧
    Forall (λ ev, is_create (action ev) = true → IsAlreadyExists (failure ev) = true)
      (logged w1 w2).
Proof.
  intros Hchain Hadd Hsame. pose proof (AddCluster_run_intro cluster w) as Hrun.
  rewrite Hadd in Hrun.
  inversion Hrun as [| | |wa wb wc H1 H2 H3]; subst;
    try match goal with
        | H : NewAggregate _ = None |- _ => by rewrite !NewAggregate_primary in H
        end.
  apply Fake_createService_nil in H1 as (svc & Hs1 & Hin1 & Hchain1 & Hkeep1 & _ & _);
    [|done].
  apply Fake_createService_nil in H2 as (rsvc & Hs2 & Hin2 & Hchain2 & Hkeep2 & _ & Hb2);
    [|done].
  apply Fake_createStatefulSet_nil in H3
    as (backup & set & Hb & Hs3 & Hin3 & Hchain3 & Hsvc3 & Hb3); [|done].
  destruct (Fake_createStatefulSet_exists (WithDefaults cluster) backup set
              {| client := client w1;
                 events := (events w1 ++
                   [{| action := CreateService (crv1.Namespace (WithDefaults cluster)) svc;
                       failure := Some (NewAlreadyExists
                                          (metav1.Name (corev1.ObjectMeta svc))) |}]) ++
                   [{| action := CreateService (crv1.Namespace (WithDefaults cluster)) rsvc;
                       failure := Some (NewAlreadyExists
                                          (metav1.Name (corev1.ObjectMeta rsvc))) |}] |})
    as (w2 & Hrun3 & Hclient & gets & Hgets & Hev); [done| |done..|].
  { simpl. by rewrite Hb3. }
  exists w2. unfold AddCluster, bind. rewrite Hsame.
  rewrite (Fake_createService_exists _ _ svc) by (rewrite ?Hsvc3; auto).
  rewrite (Fake_createService_exists _ _ rsvc) by (simpl; rewrite ?Hsvc3; auto).
  cbn [client events]. rewrite Hrun3. split; [done|]. split; [done|].
  unfold logged. rewrite Hev. simpl. rewrite <- !app_assoc, drop_app_length.
  split.
  - rewrite !creates_app, (creates_gets gets Hgets). done.
  - rewrite !Forall_app, !Forall_singleton. split_and!; [done..| |done].
    eapply Forall_impl; [done|]. intros [a e] Hget. simpl in *. by destruct a.
Qed.

(** ** AddCluster and UpdateCluster on the fake clientset *)

Lemma tracker_create_union {A} (ns name : string) (obj : A)
    (objects : gmap (string * string) A) :
  (tracker_create ns name obj objects).2 = objects ∪ {[(ns, name) := obj]}.
Proof.
  unfold tracker_create. destruct (objects !! (ns, name)) as [old|] eqn:Hold; simpl.
  - apply map_eq. intros k. rewrite lookup_union.
    destruct (decide (k = (ns, name))) as [->|Hne].
    + rewrite Hold, lookup_singleton_eq. done.
    + rewrite lookup_singleton_ne by done. by destruct (objects !! k).
  - by apply insert_union_singleton_r.
Qed.

Lemma Fake_createService_adds cluster filename w w1 :
  ReactionChain (client w) = [] →
  createService cluster filename w = Return None w1 →
  (serviceForCluster cluster filename).2 = None ∧
  ReactionChain (client w1) = [] ∧
  services (client w1) =
    services (client w) ∪
      {[(crv1.Namespace cluster,
         metav1.Name (corev1.ObjectMeta (serviceForCluster cluster filename).1))
        := (serviceForCluster cluster filename).1]} ∧
  statefulSets (client w1) = statefulSets (client w) ∧
  backupInstances (client w1) = backupInstances (client w) ∧
  clusters (client w1) = clusters (client w).
Proof.
  intros Hchain Hrun.
  apply createService_nil in Hrun as (service & r & p & Hs & Hc & _ & ->).
  rewrite Hs. simpl in *. unfold fake_call in Hc. rewrite Hchain in Hc. simpl in Hc.
  pose proof (tracker_create_union (crv1.Namespace cluster)
                (metav1.Name (corev1.ObjectMeta service)) service (services (client w)))
    as Hunion.
  destruct (tracker_create _ _ _ _) as [r' m]. simplify_eq/=. done.
Qed.

Lemma Fake_createStatefulSet_adds cluster w w1 :
  ReactionChain (client w) = [] →
  createStatefulSet cluster w = Return None w1 →
  ∃ backup,
    (crv1.FromBackup (crv1.Spec cluster) = "" → backup = None) ∧
    (statefulSetForCluster cluster backup).2 = None ∧
    ReactionChain (client w1) = [] ∧
    services (client w1) = services (client w) ∧
    statefulSets (client w1) =
      statefulSets (client w) ∪
        {[(crv1.Namespace cluster,
           metav1.Name (appsv1.ObjectMeta (statefulSetForCluster cluster backup).1))
          := (statefulSetForCluster cluster backup).1]} ∧
    backupInstances (client w1) = backupInstances (client w) ∧
    clusters (client w1) = clusters (client w).
Proof.
  intros Hchain Hrun.
  apply createStatefulSet_nil in Hrun as (backup & set & r & p & wg & Hb & Hs & Hc & _ & ->).
  exists backup. rewrite Hs. simpl.
  assert (client wg = client w ∧ (crv1.FromBackup (crv1.Spec cluster) = "" → backup = None))
    as [Hwg Hnone].
  { revert Hb. case_bool_decide as Hfrom; [|by intros [-> ->]].
    intros (pg & Hget & ->). simpl in *. unfold fake_call in Hget.
    rewrite Hchain in Hget. by simplify_eq/=. }
  split; [done|]. split; [done|].
  simpl in Hc. unfold fake_call in Hc. rewrite Hwg, Hchain in Hc. simpl in Hc.
  pose proof (tracker_create_union (crv1.Namespace cluster)
                (metav1.Name (appsv1.ObjectMeta set)) set (statefulSets (client w)))
    as Hunion.
  destruct (tracker_create _ _ _ _) as [r' m]. simplify_eq/=. done.
Qed.

(** X11.  On a clientset without reactors, an AddCluster that returns nil
    has added what was missing and left alone what was there: the services
    in the tracker are those it had, joined by the two rendered services
    under their rendered names wherever no service had that name, and the
    same for the stateful set; a service or stateful set that existed under
    such a name is kept as it was, not brought up to date.  Backups and
    cluster resources are untouched. *)
Theorem Fake_AddCluster_adds_missing cluster w c' w1 :
  ReactionChain (client w) = [] →
  AddCluster cluster w = Return (c', None) w1 →
  let c := WithDefaults cluster in
  let ns := crv1.Namespace c in
  let service := (serviceForCluster c serviceTemplate).1 in
  let readService := (serviceForCluster c serviceReadTemplate).1 in
  ∃ backup,
    (crv1.FromBackup (crv1.Spec c) = "" → backup = None) ∧
    let statefulSet := (statefulSetForCluster c backup).1 in
    services (client w1) =
      services (client w)
        ∪ {[(ns, metav1.Name (corev1.ObjectMeta service)) := service]}
        ∪ {[(ns, metav1.Name (corev1.ObjectMeta readService)) := readService]} ∧
    statefulSets (client w1) =
      statefulSets (client w)
        ∪ {[(ns, metav1.Name (appsv1.ObjectMeta statefulSet)) := statefulSet]} ∧
    backupInstances (client w1) = backupInstances (client w) ∧
    clusters (client w1) = clusters (client w).
Proof.
  intros Hchain Hadd c ns service readService.
  pose proof (AddCluster_run_intro cluster w) as Hrun. rewrite Hadd in Hrun. fold c in Hrun.
  inversion Hrun as [| | |wa wb wc H1 H2 H3]; subst;
    try match goal with
        | H : NewAggregate _ = None |- _ => by rewrite !NewAggregate_primary in H
        end.
  apply Fake_createService_adds in H1 as (_ & Hchain1 & Hsvc1 & Hset1 & Hb1 & Hc1); [|done].
  apply Fake_createService_adds in H2 as (_ & Hchain2 & Hsvc2 & Hset2 & Hb2 & Hc2); [|done].
  apply Fake_createStatefulSet_adds in H3
    as (backup & Hnone & _ & _ & Hsvc3 & Hset3 & Hb3 & Hc3); [|done].
  exists backup. split; [done|]. cbv zeta.
  rewrite Hsvc3, Hsvc2, Hsvc1, Hset3, Hset2, Hset1, Hb3, Hb2, Hb1, Hc3, Hc2, Hc1. done.
Qed.

(** On a clientset without reactors, updateService for a service that is in
    the tracker under its rendered name gives nil and keeps the names in the
    tracker. *)
Lemma Fake_updateService_exists cluster ns template w :
  ReactionChain (client w) = [] →
  (serviceForCluster cluster template).2 = None →
  is_Some (services (client w)
             !! (ns, metav1.Name (corev1.ObjectMeta (serviceForCluster cluster template).1))) →
  ∃ w1,
    updateService cluster ns template w = Return None w1 ∧
    ReactionChain (client w1) = [] ∧
    (∀ k, is_Some (services (client w) !! k) → is_Some (services (client w1) !! k)) ∧
    statefulSets (client w1) = statefulSets (client w) ∧
    clusters (client w1) = clusters (client w).
Proof.
  intros Hchain Hs [old Hold]. rewrite updateService_eq.
  destruct (serviceForCluster cluster template) as [service err]. simpl in *. subst err.
  cbv zeta. simpl. unfold fake_call, tracker_get, tracker_update.
  rewrite Hchain, Hold. simpl. rewrite Hchain, Hold. simpl.
  eexists. split; [done|]. simpl. split_and!; [done| |done..].
  intros k Hk. rewrite lookup_insert. by case_decide.
Qed.

(** X12.  UpdateCluster after AddCluster.  On a clientset without reactors,
    after an AddCluster that returned nil, UpdateCluster for the same
    defaulted cluster finds both services: it does not panic, the update of
    the services does not fail, and it returns.  When the cluster is not
    restored from a backup and its resource is in the tracker, UpdateCluster
    returns nil and the resource in the tracker carries the status
    "Successful update". *)
Theorem Fake_UpdateCluster_after_AddCluster cluster cluster2 w c' w1 :
  ReactionChain (client w) = [] →
  AddCluster cluster w = Return (c', None) w1 →
  WithDefaults cluster2 = WithDefaults cluster →
  ∃ c2 r w2,
    UpdateCluster cluster2 w1 = Return (c2, r) w2 ∧
    crv1.Message (crv1.Status c2) ≠
      "The provided patch resulted in a Service update failure" ∧
    (crv1.FromBackup (crv1.Spec c') = "" →
     is_Some (clusters (client w) !! (crv1.Namespace c', crv1.Name c')) →
     r = None ∧
     c2 = set_Status c' "Successful update" "" ∧
     clusters (client w2) !! (crv1.Namespace c', crv1.Name c') = Some c2).
Proof.
  intros Hchain Hadd Hsame.
  pose proof (AddCluster_run_intro cluster w) as Hrun. rewrite Hadd in Hrun.
  inversion Hrun as [| | |wa wb wc H1 H2 H3]; subst;
    try match goal with
        | H : NewAggregate _ = None |- _ => by rewrite !NewAggregate_primary in H
        end.
  set (c := WithDefaults cluster) in *.
  pose proof H1 as H1'. pose proof H2 as H2'. pose proof H3 as H3'.
  apply Fake_createService_nil in H1 as (svc & Hs1 & Hin1 & Hchain1 & Hkeep1 & _ & _);
    [|done].
  apply Fake_createService_nil in H2 as (rsvc & Hs2 & Hin2 & Hchain2 & Hkeep2 & Hset2 & _);
    [|done].
  apply Fake_createService_adds in H1' as (_ & _ & _ & _ & _ & Hcl1); [|done].
  apply Fake_createService_adds in H2' as (_ & _ & _ & _ & _ & Hcl2); [|done].
  apply Fake_createStatefulSet_nil in H3
    as (backup & set & Hb & Hs3 & Hin3 & Hchain3 & Hsvc3 & _); [|done].
  apply Fake_createStatefulSet_adds in H3' as (_ & _ & _ & _ & _ & _ & _ & Hcl3); [|done].
  destruct (Fake_updateService_exists c (crv1.Namespace c) serviceTemplate w1)
    as (wd & Hu1 & Hchaind & Hkeepd & Hsetd & Hcld); [done|by rewrite Hs1| |].
  { rewrite Hs1, Hsvc3. simpl. auto. }
  destruct (Fake_updateService_exists c (crv1.Namespace c) serviceReadTemplate wd)
    as (we & Hu2 & Hchaine & Hkeepe & Hsete & Hcle); [done|by rewrite Hs2| |].
  { rewrite Hs2. simpl. apply Hkeepd. rewrite Hsvc3. auto. }
  unfold UpdateCluster, updateServices, bind, ret. rewrite Hsame. fold c.
  rewrite Hu1, Hu2.
  destruct (updateStatefulSet c we) as [[err|] wf|wf] eqn:Hu3.
  - rewrite setClusterState_eq. cbv zeta. eexists _, _, _. split; [done|].
    split; [done|]. intros Hfrom _. exfalso.
    revert Hb. rewrite bool_decide_eq_false_2 by (by intros []). intros ->.
    revert Hu3. unfold updateStatefulSet. rewrite Hs3. unfold bind, StatefulSetsUpdate, ret.
    rewrite invoke_eq. simpl. unfold fake_call, tracker_update. rewrite Hchaine. simpl.
    rewrite Hsete, Hsetd. destruct Hin3 as [old ->]. simpl. by intros ?; simplify_eq.
  - rewrite setClusterState_eq. cbv zeta. eexists _, _, _. split; [done|].
    split; [done|]. intros Hfrom [tracked Htracked].
    assert (clusters (client wf) = clusters (client w1) ∧ ReactionChain (client wf) = [])
      as [Hclf Hchainf].
    { revert Hu3. unfold updateStatefulSet.
      destruct (statefulSetForCluster c None) as [set' [err|]]; [by intros ?; simplify_eq|].
      unfold bind, StatefulSetsUpdate, ret. rewrite invoke_eq. simpl.
      unfold fake_call, tracker_update. rewrite Hchaine. simpl.
      destruct (statefulSets (client we) !! _); simpl; intros ?; simplify_eq/=;
        by rewrite Hcle, Hcld. }
    simpl. unfold fake_call, tracker_update. rewrite Hchainf. simpl.
    rewrite Hclf, Hcl3, Hcl2, Hcl1.
    assert (clusters (client w)
              !! (metav1.Namespace (crv1.ObjectMeta c),
                  crv1.Name (set_Status c "Successful update" "")) = Some tracked) as ->
      by exact Htracked.
    simpl. split_and!; [done..|].
    exact (lookup_insert_eq (clusters (client w)) (crv1.Namespace c, crv1.Name c) _).
  - exfalso. revert Hu3. unfold updateStatefulSet.
    destruct (statefulSetForCluster c None) as [set' [err|]]; [done|].
    unfold bind, StatefulSetsUpdate. rewrite invoke_eq.
    by destruct (StatefulSets_Update _ _ _) as [[o err] pf].
Qed.

End FakeFacts.


(** C6.  AddCluster and objects that are already there.  On every platform,
    a run of AddCluster whose three Create calls each succeeded or failed
    with AlreadyExists returns nil, and makes no call besides these three
    Creates and the Get of the backup: nothing is created twice, nothing is
    deleted.  In particular, on a clientset without reactors, calling
    AddCluster again after an AddCluster that returned nil returns nil again,
    with the three Creates answered AlreadyExists and the objects in the
    platform unchanged. *)
Theorem AddCluster_idempotent :
  (∀ (P : Type) (I : Interface P) (E : Externals) (cluster : crv1.MySQLCluster)
     (w : World P) c' r w',
     AddCluster cluster w = Return (c', r) w' →
     length (creates (logged w w')) = 3 →
     Forall (λ ev, is_create (action ev) = true → benign (failure ev)) (logged w w') →
     r = None ∧
     Forall (λ ev, is_create (action ev) = true ∨ is_get_backup (action ev) = true)
       (logged w w')) ∧
  (∀ (E : Externals) (cluster cluster2 : crv1.MySQLCluster) (w w1 : World Fake) c',
     ReactionChain (client w) = [] →
     AddCluster cluster w = Return (c', None) w1 →
     WithDefaults cluster2 = WithDefaults cluster →
     ∃ w2,
       AddCluster cluster2 w1 = Return (c', None) w2 ∧
       client w2 = client w1 ∧
       length (creates (logged w1 w2)) = 3 ∧
       Forall (λ ev, is_create (action ev) = true → IsAlreadyExists (failure ev) = true)
         (logged w1 w2)).
Proof.
  split.
  - intros P I E. apply AddCluster_benign_creates.
  - intros E. apply Fake_AddCluster_again.
Qed.

#[local] Existing Instance sample_Externals.


Lemma AddCluster_statefulSet_failure_reverts_both_witness :
  let quota := errorString "quota exceeded" in
  let busy := StatusError StatusReasonConflict "busy" in
  let gone := NewNotFound "db-read" in
  let f := PrependReactor (fail_create_statefulSet (Some quota))
             (PrependReactor (fail_delete_service "db" (Some busy))
                (PrependReactor (fail_delete_service "db-read" (Some gone))
                   (NewSimpleClientset ∅ ∅ ∅ ∅))) in
  ∃ composite w5,
    AddCluster (sample_cluster "db" "") (start f)
      = Return (WithDefaults (sample_cluster "db" ""), Some composite) w5 ∧
    causes composite = [quota; busy; gone] ∧
    (action <$> events w5) !! 2 =
      Some (CreateStatefulSet "default"
              (sample_StatefulSet (WithDefaults (sample_cluster "db" ""), None)
                 new_StatefulSet statefulSetTemplate).1) ∧
    (failure <$> events w5) !! 2 = Some (Some quota) ∧
    action <$> drop 3 (events w5) =
      [DeleteService "default" "db"; DeleteService "default" "db-read"].
Proof.
  intros quota busy gone f.
  edestruct (AddCluster_statefulSet_failure_reverts_both (sample_cluster "db" "") quota
               (start f))
    as (composite & w5 & Hrun & _ & Hev & _ & Hcauses); [vm_compute; reflexivity..|].
  exists composite, w5. split; [exact Hrun|]. split; [exact Hcauses|].
  rewrite Hev. by vm_compute.
Defined.

Lemma AddCluster_backup_failure_reverts_both_witness :
  let c := sample_cluster "db" "yesterday" in
  let missing := NewNotFound "yesterday" in
  let f := NewSimpleClientset ∅ ∅ ∅ ∅ in
  ∃ w2 w5 : World Fake,
    createStatefulSet (WithDefaults c) w2 = Return (Some missing) w5 ∧
    ∃ w', AddCluster c (start f)
            = Return (WithDefaults c, Some (aggregate [aggregate [missing]])) w' ∧
          action <$> events w' =
            [CreateService "default" (sample_Service c new_Service serviceTemplate).1;
             CreateService "default" (sample_Service c new_Service serviceReadTemplate).1;
             GetMySQLBackupInstance "default" "yesterday";
             DeleteService "default" "db";
             DeleteService "default" "db-read"].
Proof.
  intros c missing f.
  edestruct (AddCluster_backup_failure_reverts_both c None missing (start f))
    as [Hset Hrun]; [done|vm_compute; reflexivity..|].
  eexists _, _. split; [exact Hset|]. eexists. split; [exact Hrun|].
  vm_compute. reflexivity.
Defined.

(** C3 as stated fails: the backup cannot be fetched, and AddCluster deletes
    the two services and returns the error wrapped in aggregates. *)
Lemma AddCluster_backup_failure_counterexample :
  let c := sample_cluster "db" "yesterday" in
  let missing := NewNotFound "yesterday" in
  crv1.FromBackup (crv1.Spec c) ≠ "" ∧
  ∃ r w',
    AddCluster c (start (NewSimpleClientset ∅ ∅ ∅ ∅)) = Return (WithDefaults c, r) w' ∧
    {| action := GetMySQLBackupInstance "default" "yesterday"; failure := Some missing |}
      ∈ events w' ∧
    r ≠ Some missing ∧
    DeleteService "default" "db" ∈ action <$> events w' ∧
    DeleteService "default" "db-read" ∈ action <$> events w'.
Proof.
  intros c missing. split; [done|]. eexists _, _. split; [vm_compute; reflexivity|].
  vm_compute. split_and!; [|done|..]; repeat (by left) || right.
Qed.

Lemma AddCluster_aggregates_NotFound_witness :
  let boom := errorString "boom" in
  let gone := NewNotFound "db" in
  let f := PrependReactor (fail_create_service "db-read" (Some boom))
             (PrependReactor (fail_delete_service "db" (Some gone))
                (NewSimpleClientset ∅ ∅ ∅ ∅)) in
  ∃ r w', AddCluster (sample_cluster "db" "") (start f)
            = Return (WithDefaults (sample_cluster "db" ""), r) w' ∧
          ∃ composite, r = Some composite ∧ gone ∈ causes composite.
Proof.
  intros boom gone f. eexists _, _. split; [vm_compute; reflexivity|].
  eapply (AddCluster_aggregates_NotFound (sample_cluster "db" "") (start f) _ _ _
            "default" "db" gone); [vm_compute; reflexivity| |reflexivity].
  vm_compute. do 2 right. left.
Defined.

(** C7 as stated fails: the NotFound of the compensating delete is a cause of
    the error AddCluster returns. *)
Lemma AddCluster_NotFound_counterexample :
  let boom := errorString "boom" in
  let gone := NewNotFound "db" in
  let f := PrependReactor (fail_create_service "db-read" (Some boom))
             (PrependReactor (fail_delete_service "db" (Some gone))
                (NewSimpleClientset ∅ ∅ ∅ ∅)) in
  ∃ w', AddCluster (sample_cluster "db" "") (start f)
          = Return (WithDefaults (sample_cluster "db" ""), Some (aggregate [boom; gone])) w' ∧
        last (events w') = Some {| action := DeleteService "default" "db";
                                   failure := Some gone |} ∧
        IsNotFound (Some gone) = true ∧
        causes (aggregate [boom; gone]) = [boom; gone].
Proof. intros boom gone f. eexists. split; [vm_compute; reflexivity|]. by vm_compute. Qed.

Lemma AddCluster_writes_no_status_witness :
  let c := {| crv1.ObjectMeta := crv1.ObjectMeta (sample_cluster "db" "");
              crv1.Spec := crv1.Spec (sample_cluster "db" "");
              crv1.Status := {| crv1.State := "Successful update"; crv1.Message := "" |} |} in
  let f := PrependReactor (fail_create_statefulSet (Some (errorString "quota exceeded")))
             (NewSimpleClientset ∅ ∅ ∅ ∅) in
  ∃ c' r w',
    AddCluster c (start f) = Return (c', r) w' ∧
    crv1.State (crv1.Status c') = "Successful update" ∧
    crv1.Message (crv1.Status c') = "" ∧
    Forall (λ ev, is_status_write (action ev) = false) (logged (start f) w').
Proof.
  intros c f. exact (AddCluster_writes_no_status c (start f) eq_refl).
Defined.

Lemma AddCluster_idempotent_witness :
  let c := sample_cluster "db" "" in
  let f := NewSimpleClientset ∅ ∅ ∅ ∅ in
  ∃ w1 w2,
    AddCluster c (start f) = Return (WithDefaults c, None) w1 ∧
    AddCluster c w1 = Return (WithDefaults c, None) w2 ∧
    client w2 = client w1 ∧
    size (services (client w2)) = 2 ∧
    size (statefulSets (client w2)) = 1.
Proof.
  intros c f.
  destruct (AddCluster c (start f)) as [[c1 r1] w1|] eqn:Hrun1; [|by vm_compute in Hrun1].
  assert (c1 = WithDefaults c) as -> by (by vm_compute in Hrun1; simplify_eq).
  destruct (proj1 AddCluster_idempotent Fake _ _ c (start f) _ r1 w1 Hrun1) as [-> _].
  { by vm_compute in Hrun1; simplify_eq. }
  { vm_compute in Hrun1. simplify_eq. vm_compute.
    repeat (apply Forall_cons; split; [intros _; by left|]). by apply Forall_nil. }
  destruct (proj2 AddCluster_idempotent _ c c (start f) w1 _ eq_refl Hrun1 eq_refl)
    as (w2 & Hrun2 & Hclient & _).
  exists w1, w2. split; [done|]. split; [done|]. split; [done|].
  rewrite Hclient. by vm_compute in Hrun1; simplify_eq.
Defined.

Lemma UpdateCluster_service_failure_witness :
  let conflict := StatusError StatusReasonConflict "the object has been modified" in
  let f := PrependReactor (fail_update_service "db-read" (Some conflict)) added in
  let failed := set_Status (WithDefaults (sample_cluster "db" "")) "Failed update"
                  "The provided patch resulted in a Service update failure" in
  ∃ w2,
    UpdateCluster (sample_cluster "db" "") (start f)
      = Return (failed, Some (aggregate [conflict; NewNotFound "db"])) w2 ∧
    last (events w2) = Some {| action := UpdateMySQLCluster "default" failed;
                               failure := Some (NewNotFound "db") |} ∧
    Forall (λ ev, is_statefulSet_update (action ev) = false) (logged (start f) w2).
Proof.
  intros conflict f failed.
  edestruct (UpdateCluster_service_failure (sample_cluster "db" "") conflict (start f))
    as (w2 & Hrun & _ & _ & _ & Hev & Hlog); [vm_compute; reflexivity|].
  exists w2. split; [exact Hrun|]. split; [|exact Hlog].
  rewrite Hev. by rewrite last_snoc.
Defined.

Lemma UpdateCluster_success_witness :
  let c := sample_cluster "db" "" in
  let f := with_clusters added {[ ("default", "db") := c ]} in
  let updated := set_Status (WithDefaults c) "Successful update" "" in
  ∃ w3,
    UpdateCluster c (start f) = Return (updated, None) w3 ∧
    clusters (client w3) !! ("default", "db") = Some updated ∧
    crv1.State (crv1.Status updated) = "Successful update" ∧
    crv1.Message (crv1.Status updated) = "".
Proof.
  intros c f updated.
  edestruct (UpdateCluster_success c (start f)) as (Hrun & Hstate & Hmessage);
    [vm_compute; reflexivity..|].
  eexists. split; [exact Hrun|]. split; [|by split]. by vm_compute.
Defined.

Lemma updateService_drops_Get_error_witness :
  let c := WithDefaults (sample_cluster "db" "") in
  let timeout := errorString "context deadline exceeded" in
  let r := {| backend := PrependReactor (fail_get_service "db" (Some timeout)) added |} in
  ∃ w',
    updateService c "default" serviceTemplate (start r) = Return None w' ∧
    events w' =
      [{| action := GetService "default" "db"; failure := Some timeout |};
       {| action := UpdateService "default" (sample_Service c new_Service serviceTemplate).1;
          failure := None |}].
Proof.
  intros c timeout r.
  pose proof (proj2 (updateService_drops_Get_error c "default" serviceTemplate (start r))
                _ _ _ _ eq_refl eq_refl) as Hrun.
  eexists. split; [exact Hrun|]. vm_compute. reflexivity.
Defined.

(** C10 as stated fails: a Get that hands back nil, as that of the fake
    clientset does for a service that does not exist, makes updateService
    panic on the nil object; nothing is returned and no Update is made. *)
Lemma updateService_nil_object_counterexample :
  let c := WithDefaults (sample_cluster "db" "") in
  let f := NewSimpleClientset ∅ ∅ ∅ ∅ in
  serviceForCluster c serviceTemplate = ((sample_Service c new_Service serviceTemplate).1, None) ∧
  Services_Get "default" "db" f = ((None, Some (NewNotFound "db")), f) ∧
  updateService c "default" serviceTemplate (start f) =
    Panic {| client := f;
             events := [{| action := GetService "default" "db";
                           failure := Some (NewNotFound "db") |}] |}.
Proof. by vm_compute. Qed.

Lemma dispatch_in_arrival_order_witness :
  let db := sample_cluster "db" "" in
  let other := sample_cluster "other" "" in
  let patched := set_Status db "patched" "" in
  let schedule :=
    [Arrive {| kind := Added; resource := db |};
     Arrive {| kind := Added; resource := other |};
     Start ("default", "db");
     Arrive {| kind := Modified; resource := patched |};
     Start ("default", "db");
     Start ("default", "other");
     Finish ("default", "db");
     Start ("default", "db")] in
  let rest :=
    [Finish ("default", "other");
     Arrive {| kind := Modified; resource := other |};
     Finish ("default", "db");
     Start ("default", "db")] in
  marks ("default", "db") (trace (dispatch schedule)) =
    [Begin OpAddCluster db; End OpAddCluster db; Begin OpUpdateCluster patched] ∧
  marks ("default", "db") (trace (dispatch schedule)) `prefix_of`
    [Begin OpAddCluster db; End OpAddCluster db;
     Begin OpUpdateCluster patched; End OpUpdateCluster patched] ∧
  marks ("default", "db") (trace (dispatch (schedule ++ rest))) =
    [Begin OpAddCluster db; End OpAddCluster db;
     Begin OpUpdateCluster patched; End OpUpdateCluster patched].
Proof.
  intros db other patched schedule rest.
  destruct (dispatch_in_arrival_order schedule ("default", "db")) as (_ & Horder & Hall).
  split; [by vm_compute|]. split.
  - apply (Horder db patched). by vm_compute.
  - destruct (Hall rest) as (Hmarks & _ & _); [by vm_compute| |by rewrite Hmarks].
    change (turns (dispatch schedule) ("default", "db")) with [Finish ("default", "db")].
    apply sublist_cons, sublist_cons, sublist_skip, sublist_nil_l.
Defined.

(** ** More runs on the fake clientset *)

Lemma AddCluster_first_service_failure_witness :
  let denied := StatusError StatusReasonInternalError "denied" in
  let f := PrependReactor (fail_create_service "db" (Some denied))
             (NewSimpleClientset ∅ ∅ ∅ ∅) in
  ∃ w', AddCluster (sample_cluster "db" "") (start f)
          = Return (WithDefaults (sample_cluster "db" ""), Some denied) w' ∧
        length (events w') = 1 ∧
        services (client w') = ∅.
Proof.
  intros denied f.
  pose proof (proj2 (AddCluster_first_service_failure (sample_cluster "db" "") (start f))
                _ _ _ _ eq_refl eq_refl eq_refl) as Hrun.
  eexists. split; [exact Hrun|]. by vm_compute.
Defined.

Lemma AddCluster_trace_witness :
  let f := PrependReactor (fail_create_statefulSet (Some (errorString "quota exceeded")))
             (NewSimpleClientset ∅ ∅ ∅ ∅) in
  let c := WithDefaults (sample_cluster "db" "") in
  ∃ r w' steps rollback,
    AddCluster (sample_cluster "db" "") (start f) = Return (c, r) w' ∧
    logged (start f) w' = steps ++ rollback ∧
    Forall (λ ev, is_create (action ev) = true) steps ∧
    (length steps ≤ 3)%nat ∧
    rollback ≠ [] ∧
    is_Some r.
Proof.
  intros f c.
  destruct (AddCluster (sample_cluster "db" "") (start f)) as [[c' r] w'|] eqn:Hrun;
    [|by vm_compute in Hrun].
  assert (c' = c) as -> by (by vm_compute in Hrun; simplify_eq).
  destruct (AddCluster_trace (sample_cluster "db" "") (start f) c r w' Hrun)
    as (steps & rollback & Hlog & _ & _ & Hnone & Hshape & Hfail).
  destruct (Hnone eq_refl) as [Hcreates Hlen].
  exists r, w', steps, rollback. split; [done|]. split; [done|]. split; [done|].
  split; [done|].
  assert (rollback ≠ []) as Hrollback; [|by auto].
  intros ->. rewrite app_nil_r in Hlog. subst steps.
  vm_compute in Hrun. simplify_eq. vm_compute in Hlen. lia.
Defined.

Lemma AddCluster_nil_witness :
  let cluster := sample_cluster "db" "yesterday" in
  let c := WithDefaults cluster in
  let yesterday := {| crv1.BackupObjectMeta := sample_meta cluster "yesterday";
                      crv1.BackupSpec := "db"; crv1.BackupStatus := "Completed" |} in
  let f := NewSimpleClientset ∅ ∅ {[ ("default", "yesterday") := yesterday ]} ∅ in
  ∃ w' : World Fake,
    AddCluster cluster (start f) = Return (c, None) w' ∧
    logged (start f) w' =
      [{| action := CreateService "default" (serviceForCluster c serviceTemplate).1;
          failure := None |};
       {| action := CreateService "default" (serviceForCluster c serviceReadTemplate).1;
          failure := None |};
       {| action := GetMySQLBackupInstance "default" "yesterday"; failure := None |};
       {| action := CreateStatefulSet "default" (statefulSetForCluster c (Some yesterday)).1;
          failure := None |}].
Proof.
  intros cluster c yesterday f.
  destruct (AddCluster cluster (start f)) as [[c' r] w'|] eqn:Hrun.
  2: { apply (f_equal (λ o, match o with Return _ _ => true | Panic _ => false end)) in Hrun.
       by vm_compute in Hrun. }
  assert (r = None) as ->.
  { apply (f_equal (λ o, match o with Return (_, r) _ => r | Panic _ => None end)) in Hrun.
    rewrite <- Hrun. by vm_compute. }
  destruct (AddCluster_nil cluster (start f) c' w' Hrun)
    as (service & readService & backup & statefulSet & r1 & p1 & r2 & p2 & pg & r3 &
        -> & Hs & Hrs & Hset & H1 & H2 & Hget & H3 & _ & _ & _ & Hlog).
  exists w'. split; [done|]. rewrite Hlog. clear Hlog Hrun.
  rewrite bool_decide_eq_true_2 in Hget by done.
  rewrite bool_decide_eq_true_2 by done.
  (* what the platform answered, call by call *)
  apply (f_equal fst) in Hs, Hrs, Hset, H3. cbn [fst] in Hs, Hrs, Hset, H3.
  subst service readService.
  pose proof (f_equal fst H1) as Hr1. apply (f_equal snd) in H1. cbn [fst snd] in Hr1, H1.
  subst r1 p1.
  pose proof (f_equal fst H2) as Hr2. apply (f_equal snd) in H2. cbn [fst snd] in Hr2, H2.
  subst r2 p2.
  pose proof (f_equal (λ x, x.1.1) Hget) as Hb. apply (f_equal snd) in Hget.
  cbn [fst snd] in Hb, Hget. subst backup pg statefulSet r3.
  by vm_compute.
Defined.

Lemma AddCluster_reverts_existing_service_witness :
  let legacy := {| corev1.ObjectMeta := sample_meta (sample_cluster "db" "") "db";
                   corev1.Spec := "legacy" |} in
  let boom := errorString "boom" in
  let f := PrependReactor (fail_create_service "db-read" (Some boom))
             (NewSimpleClientset {[ ("default", "db") := legacy ]} ∅ ∅ ∅) in
  services f !! ("default", "db") = Some legacy ∧
  ∃ w', AddCluster (sample_cluster "db" "") (start f)
          = Return (WithDefaults (sample_cluster "db" ""), Some (aggregate [boom])) w' ∧
        services (client w') !! ("default", "db") = None.
Proof.
  intros legacy boom f. split; [by vm_compute|].
  pose proof (AddCluster_reverts_existing_service (sample_cluster "db" "") (start f)
                _ _ _ _ _ _ _ _ eq_refl eq_refl eq_refl eq_refl eq_refl eq_refl) as Hrun.
  eexists. split; [exact Hrun|]. by vm_compute.
Defined.

Lemma UpdateCluster_statefulSet_failure_witness :
  let conflict := StatusError StatusReasonConflict "the object has been modified" in
  let f := PrependReactor
             (λ a, match a with UpdateStatefulSet _ _ => Some (Some conflict) | _ => None end)
             (with_clusters added {[ ("default", "db") := sample_cluster "db" "" ]}) in
  let failed := set_Status (WithDefaults (sample_cluster "db" "")) "Failed update"
                  "The provided patch resulted in a StatefulSet update failure" in
  ∃ w3,
    UpdateCluster (sample_cluster "db" "") (start f)
      = Return (failed, Some (aggregate [conflict])) w3 ∧
    clusters (client w3) !! ("default", "db") = Some failed ∧
    is_get_service <$> (action <$> events w3) = [true; false; true; false; false; false].
Proof.
  intros conflict f failed.
  edestruct (UpdateCluster_statefulSet_failure (sample_cluster "db" "") conflict (start f))
    as (w3 & Hrun & Hclient & Hev & _); [vm_compute; reflexivity..|].
  exists w3. split; [exact Hrun|]. rewrite Hclient, Hev. by vm_compute.
Defined.

Lemma UpdateCluster_status_written_once_witness :
  let f := PrependReactor (fail_update_service "db-read" (Some (errorString "timeout")))
             added in
  ∃ c' r w' evs writeErr,
    UpdateCluster (sample_cluster "db" "") (start f) = Return (c', r) w' ∧
    logged (start f) w' =
      evs ++ [{| action := UpdateMySQLCluster "default" c'; failure := writeErr |}] ∧
    Forall (λ ev, is_status_write (action ev) = false) evs ∧
    crv1.State (crv1.Status c') = "Failed update".
Proof.
  intros f.
  destruct (UpdateCluster (sample_cluster "db" "") (start f)) as [[c' r] w'|] eqn:Hrun;
    [|by vm_compute in Hrun].
  destruct (UpdateCluster_status_written_once (sample_cluster "db" "") (start f) c' r w' Hrun)
    as (evs & writeErr & Hlog & Hevs & Hmeta & _ & _).
  exists c', r, w', evs, writeErr. split; [done|]. split.
  { rewrite Hlog. unfold crv1.Namespace. by rewrite Hmeta. }
  split; [done|]. by vm_compute in Hrun; simplify_eq.
Defined.

Lemma UpdateCluster_nil_witness :
  let c := sample_cluster "db" "" in
  let f := with_clusters added {[ ("default", "db") := c ]} in
  (* both Gets fail, behind the typed clients of the real clientset *)
  let r := {| backend := PrependReactor (fail_get_service "db" (Some (errorString "timeout")))
                           (PrependReactor
                              (fail_get_service "db-read" (Some (errorString "timeout"))) f) |} in
  ∃ c' w',
    UpdateCluster c (start r) = Return (c', None) w' ∧
    c' = set_Status (WithDefaults c) "Successful update" "" ∧
    action <$> logged (start r) w' =
      [GetService "default" "db";
       UpdateService "default" (serviceForCluster (WithDefaults c) serviceTemplate).1;
       GetService "default" "db-read";
       UpdateService "default" (serviceForCluster (WithDefaults c) serviceReadTemplate).1;
       UpdateStatefulSet "default" (statefulSetForCluster (WithDefaults c) None).1;
       UpdateMySQLCluster "default" c'] ∧
    failure <$> logged (start r) w' =
      [Some (errorString "timeout"); None; Some (errorString "timeout"); None; None; None].
Proof.
  intros c f r.
  destruct (UpdateCluster c (start r)) as [[c' e] w'|] eqn:Hrun.
  2: { apply (f_equal (λ o, match o with Return _ _ => true | Panic _ => false end)) in Hrun.
       by vm_compute in Hrun. }
  assert (e = None) as ->.
  { apply (f_equal (λ o, match o with Return (_, e) _ => e | Panic _ => None end)) in Hrun.
    rewrite <- Hrun. by vm_compute. }
  destruct (UpdateCluster_nil c (start r) c' w' Hrun)
    as (service & readService & statefulSet & old & getErr & p1 & o1 & p2 &
        oldRead & getReadErr & p3 & o2 & p4 & o3 & p5 & o4 &
        -> & Hs & Hrs & Hset & Hg1 & Hu1 & Hg2 & _ & _ & _ & Hlog).
  eexists _, w'. split; [done|]. split; [done|]. rewrite Hlog. clear Hlog Hrun.
  (* what the platform answered, call by call *)
  apply (f_equal fst) in Hs, Hrs, Hset. cbn [fst] in Hs, Hrs, Hset.
  subst service readService statefulSet.
  pose proof (f_equal (λ x, default new_Service x.1.1) Hg1) as Hold.
  pose proof (f_equal (λ x, x.1.2) Hg1) as HgetErr. apply (f_equal snd) in Hg1.
  cbn [fst snd from_option id] in Hold, HgetErr, Hg1. subst old getErr p1.
  apply (f_equal snd) in Hu1. cbn [snd] in Hu1. subst p2.
  pose proof (f_equal (λ x, default new_Service x.1.1) Hg2) as Hold.
  pose proof (f_equal (λ x, x.1.2) Hg2) as HgetErr.
  cbn [fst snd from_option id] in Hold, HgetErr. subst oldRead getReadErr.
  split; by vm_compute.
Defined.

Lemma UpdateCluster_nil_object_panics_witness :
  let f := NewSimpleClientset ∅ ∅ ∅ ∅ in
  UpdateCluster (sample_cluster "db" "") (start f) =
    Panic {| client := f;
             events := [{| action := GetService "default" "db";
                           failure := Some (NewNotFound "db") |}] |}.
Proof.
  intros f.
  exact (proj1 (UpdateCluster_nil_object_panics (sample_cluster "db" "") (start f))
           _ _ _ eq_refl eq_refl).
Defined.

Lemma UpdateCluster_first_update_failure_witness :
  let conflict := StatusError StatusReasonConflict "the object has been modified" in
  let f := PrependReactor (fail_update_service "db" (Some conflict)) added in
  ∃ c' w',
    UpdateCluster (sample_cluster "db" "") (start f)
      = Return (c', Some (aggregate [conflict; NewNotFound "db"])) w' ∧
    action <$> events w' =
      [GetService "default" "db";
       UpdateService "default" (sample_Service (sample_cluster "db" "") new_Service
                                  serviceTemplate).1;
       UpdateMySQLCluster "default" c'].
Proof.
  intros conflict f.
  pose proof (UpdateCluster_first_update_failure (sample_cluster "db" "") (start f)
                _ _ _ _ _ _ _ eq_refl eq_refl eq_refl) as Hrun.
  eexists _, _. split; [exact Hrun|]. by vm_compute.
Defined.

Lemma Fake_AddCluster_adds_missing_witness :
  let legacy := {| corev1.ObjectMeta := sample_meta (sample_cluster "db" "") "db";
                   corev1.Spec := "legacy" |} in
  let f := NewSimpleClientset {[ ("default", "db") := legacy ]} ∅ ∅ ∅ in
  ∃ c' w1,
    AddCluster (sample_cluster "db" "") (start f) = Return (c', None) w1 ∧
    services (client w1) !! ("default", "db") = Some legacy ∧
    size (services (client w1)) = 2 ∧
    size (statefulSets (client w1)) = 1.
Proof.
  intros legacy f.
  destruct (AddCluster (sample_cluster "db" "") (start f)) as [[c' r] w1|] eqn:Hrun;
    [|by vm_compute in Hrun].
  assert (r = None) as -> by (by vm_compute in Hrun; simplify_eq).
  destruct (Fake_AddCluster_adds_missing (sample_cluster "db" "") (start f) c' w1 eq_refl Hrun)
    as (backup & Hnone & Hservices & Hsets & _).
  rewrite (Hnone eq_refl) in Hsets.
  exists c', w1. split; [done|]. rewrite Hservices, Hsets. by vm_compute.
Defined.

Lemma Fake_UpdateCluster_after_AddCluster_witness :
  let c := sample_cluster "db" "" in
  let f := NewSimpleClientset ∅ ∅ ∅ {[ ("default", "db") := c ]} in
  ∃ w1 c2 w2,
    AddCluster c (start f) = Return (WithDefaults c, None) w1 ∧
    UpdateCluster c w1 = Return (c2, None) w2 ∧
    clusters (client w2) !! ("default", "db") = Some c2 ∧
    crv1.State (crv1.Status c2) = "Successful update".
Proof.
  intros c f.
  destruct (AddCluster c (start f)) as [[c' r] w1|] eqn:Hrun; [|by vm_compute in Hrun].
  assert (c' = WithDefaults c ∧ r = None) as [-> ->] by (by vm_compute in Hrun; simplify_eq).
  destruct (Fake_UpdateCluster_after_AddCluster c c (start f) _ w1 eq_refl Hrun eq_refl)
    as (c2 & r & w2 & Hupdate & _ & Hsuccess).
  destruct Hsuccess as (-> & -> & Htracked); [done|by vm_compute; eexists|].
  exists w1, (set_Status (WithDefaults c) "Successful update" ""), w2.
  split; [done|]. split; [exact Hupdate|]. split; [exact Htracked|done].
Defined.

(** * Deep copies *)

Lemma MySQLCluster_DeepCopyInto_eq (in_ out : crv1.MySQLCluster) :
  MySQLCluster_DeepCopyInto in_ out = in_.
Proof. by destruct in_ as [meta [storage replicas fromBackup] status]. Qed.

(** The loop over the indices [k, k + m): the elements of in at these
    indices are now those of out, the rest of out is as it was, and no other
    array has changed. *)
Lemma copy_items_seq (inItems outItems : slice) (h : gmap loc (list crv1.MySQLCluster))
    (src dst : list crv1.MySQLCluster) (k m : nat) :
  array inItems ≠ array outItems →
  offset outItems = 0 →
  h !! array inItems = Some src →
  h !! array outItems = Some dst →
  (offset inItems + k + m ≤ length src)%nat →
  (k + m ≤ length dst)%nat →
  copy_items inItems outItems (seq k m) h =
    Some (<[array outItems :=
              take k dst ++ take m (drop (offset inItems + k) src) ++ drop (k + m) dst]> h).
Proof.
  intros Hne Hzero Hsrc. revert k dst h Hsrc.
  induction m as [|m IH]; intros k dst h Hsrc Hdst Hlen_src Hlen_dst; simpl.
  - rewrite Nat.add_0_r, take_drop. by rewrite insert_id.
  - unfold copy_item at 1. rewrite Hsrc. simpl.
    destruct (lookup_lt_is_Some_2 src (offset inItems + k)) as [x Hx]; [lia|].
    rewrite Hx. simpl. rewrite Hdst. simpl. rewrite Hzero. simpl.
    destruct (lookup_lt_is_Some_2 dst k) as [y Hy]; [lia|].
    rewrite Hy. simpl. rewrite MySQLCluster_DeepCopyInto_eq.
    rewrite (IH (S k) (<[k := x]> dst)).
    + rewrite insert_insert_eq. f_equal. f_equal.
      rewrite (take_S_r (<[k:=x]> dst) k x) by (apply list_lookup_insert_eq; lia).
      rewrite take_insert_ge by lia.
      rewrite drop_insert_lt by lia.
      replace (offset inItems + S k)%nat with (S (offset inItems + k)) by lia.
      rewrite (drop_S src x (offset inItems + k) Hx). simpl.
      rewrite <- app_assoc. simpl.
      by replace (k + S m)%nat with (S (k + m)) by lia.
    + by rewrite lookup_insert_ne.
    + by rewrite lookup_insert_eq.
    + lia.
    + rewrite length_insert. lia.
Qed.

(** What DeepCopy does for a list with Items. *)
Lemma MySQLClusterList_DeepCopy_Items (l : MySQLClusterList) (s : slice)
    (arr : list crv1.MySQLCluster) (h : gmap loc (list crv1.MySQLCluster)) :
  Items l = Some s →
  h !! array s = Some arr →
  (offset s + len s ≤ length arr)%nat →
  let a := fresh (dom h) in
  (MySQLClusterList_DeepCopy (Some l) h =
     Some (Some {| ListTypeMeta := ListTypeMeta l; ListMeta := ListMeta l;
                   Items := Some {| array := a; offset := 0; len := len s |} |},
           <[a := take (len s) (drop (offset s) arr)]> h)) ∧
  (a ∉ dom h) ∧ a ≠ array s.
Proof.
  intros Hitems Harr Hlen a.
  assert (a ∉ dom h) as Hfresh by apply is_fresh.
  assert (a ≠ array s) as Hne.
  { intros Heq. apply Hfresh. rewrite Heq. apply elem_of_dom. eauto. }
  split; [|done].
  unfold MySQLClusterList_DeepCopy, MySQLClusterList_DeepCopyInto. rewrite Hitems. fold a.
  erewrite (copy_items_seq s {| array := a; offset := 0; len := len s |} _ arr
              (replicate (len s) new_MySQLCluster) 0 (len s)); simpl.
  - rewrite insert_insert_eq, Nat.add_0_r.
    rewrite (drop_ge (replicate (len s) new_MySQLCluster))
      by (rewrite length_replicate; lia).
    by rewrite app_nil_r.
  - done.
  - done.
  - by rewrite lookup_insert_ne.
  - by rewrite lookup_insert_eq.
  - lia.
  - rewrite length_replicate. lia.
Qed.

(** X13.  The deep copy of a list is equal to the list and apart from it.
    Type and list metadata are the same.  Nil Items stay nil, and nothing
    is allocated.  Items that are not nil, empty or not, are copied into an
    array allocated at a fresh address: the copy's slice has the same
    length and shows the same elements, and every array of the heap is as
    it was. *)
Theorem MySQLClusterList_DeepCopy_copies (l : MySQLClusterList)
    (h : gmap loc (list crv1.MySQLCluster)) :
  valid_Items h l →
  ∃ out h',
    MySQLClusterList_DeepCopy (Some l) h = Some (Some out, h') ∧
    ListTypeMeta out = ListTypeMeta l ∧
    ListMeta out = ListMeta l ∧
    (∀ a, a ∈ dom h → h' !! a = h !! a) ∧
    match Items l with
    | None => Items out = None ∧ h' = h
    | Some s =>
      ∃ s', Items out = Some s' ∧
            (array s' ∉ dom h) ∧
            len s' = len s ∧
            is_Some (view h s) ∧
            view h' s' = view h s
    end.
Proof.
  intros Hvalid. destruct (Items l) as [s|] eqn:Hitems.
  - destruct (Hvalid s Hitems) as (arr & Harr & Hlen).
    destruct (MySQLClusterList_DeepCopy_Items l s arr h Hitems Harr Hlen)
      as (Hcopy & Hfresh & Hne).
    eexists _, _. split; [exact Hcopy|]. simpl. split_and!; [done..| |].
    + intros a Ha. rewrite lookup_insert_ne; [done|]. by intros <-.
    + eexists. split; [done|]. simpl. split_and!; [done..| |].
      * unfold view. rewrite Harr. simpl. eauto.
      * unfold view. simpl. rewrite lookup_insert_eq, Harr. simpl. f_equal.
        apply take_ge. rewrite length_take. lia.
  - exists {| ListTypeMeta := ListTypeMeta l; ListMeta := ListMeta l; Items := None |}, h.
    unfold MySQLClusterList_DeepCopy, MySQLClusterList_DeepCopyInto. rewrite Hitems. simpl.
    by split_and!.
Qed.

(** X14.  After a deep copy, the list and its copy share no element: a write
    to an element of the copy leaves what the original shows as it is, and
    a write to an element of the original leaves what the copy shows as it
    is. *)
Theorem MySQLClusterList_DeepCopy_independent (l out : MySQLClusterList) (s s' : slice)
    (h h' : gmap loc (list crv1.MySQLCluster)) (arr arr' : list crv1.MySQLCluster)
    (i : nat) (x : crv1.MySQLCluster) :
  valid_Items h l →
  Items l = Some s →
  MySQLClusterList_DeepCopy (Some l) h = Some (Some out, h') →
  Items out = Some s' →
  h' !! array s = Some arr →
  h' !! array s' = Some arr' →
  view (<[array s' := <[offset s' + i := x]> arr']> h') s = view h s ∧
  view (<[array s := <[offset s + i := x]> arr]> h') s' = view h s.
Proof.
  intros Hvalid Hitems Hcopy Hout Harr Harr'.
  destruct (Hvalid s Hitems) as (arr0 & Harr0 & Hlen).
  destruct (MySQLClusterList_DeepCopy_Items l s arr0 h Hitems Harr0 Hlen)
    as (Hcopy' & Hfresh & Hne).
  rewrite Hcopy in Hcopy'. simplify_eq/=.
  rewrite lookup_insert_ne in Harr by done. rewrite lookup_insert_eq in Harr'.
  simplify_eq. unfold view. simpl.
  rewrite lookup_insert_ne by done. rewrite lookup_insert_ne by done.
  rewrite Harr. simpl. split; [done|].
  rewrite lookup_insert_ne by done. rewrite lookup_insert_eq. simpl. f_equal.
  apply take_ge. rewrite length_take. lia.
Qed.

Lemma MySQLClusterList_DeepCopy_copies_witness :
  let db := sample_cluster "db" "" in
  let other := sample_cluster "other" "yesterday" in
  let h : gmap loc (list crv1.MySQLCluster) := {[ 1%positive := [db; other; db] ]} in
  let l := {| ListTypeMeta := "MySQLClusterList"; ListMeta := "42";
              Items := Some {| array := 1%positive; offset := 1; len := 2 |} |} in
  ∃ out h' s',
    MySQLClusterList_DeepCopy (Some l) h = Some (Some out, h') ∧
    Items out = Some s' ∧
    array s' ≠ 1%positive ∧
    view h' s' = Some [other; db] ∧
    h' !! 1%positive = Some [db; other; db].
Proof.
  intros db other h l.
  destruct (MySQLClusterList_DeepCopy_copies l h) as (out & h' & Hcopy & _ & _ & Hframe & Hs).
  { intros s [= <-]. exists [db; other; db]. split; [done|]. simpl. lia. }
  simpl in Hs. destruct Hs as (s' & Hout & Hfresh & _ & _ & Hview).
  exists out, h', s'. split_and!; [done..| |exact Hview|].
  - intros Heq. apply Hfresh. rewrite Heq. by vm_compute.
  - rewrite Hframe; [done|]. by vm_compute.
Defined.

Lemma MySQLClusterList_DeepCopy_independent_witness :
  let db := sample_cluster "db" "" in
  let other := sample_cluster "other" "yesterday" in
  let h : gmap loc (list crv1.MySQLCluster) := {[ 1%positive := [db; other] ]} in
  let s := {| array := 1%positive; offset := 0; len := 2 |} in
  let l := {| ListTypeMeta := "MySQLClusterList"; ListMeta := "42"; Items := Some s |} in
  let s' := {| array := fresh (dom h); offset := 0; len := 2 |} in
  let h' := <[fresh (dom h) := [db; other]]> h in
  view (<[array s' := <[offset s' + 1 := db]> [db; other]]> h') s = view h s ∧
  view (<[array s := <[offset s + 1 := db]> [db; other]]> h') s' = view h s.
Proof.
  intros db other h s l s' h'.
  apply (MySQLClusterList_DeepCopy_independent l
           {| ListTypeMeta := "MySQLClusterList"; ListMeta := "42"; Items := Some s' |}
           s s' h h' [db; other] [db; other] 1 db); try by vm_compute.
  intros s0 [= <-]. exists [db; other]. split; [done|]. simpl. lia.
Defined.
